(** * The fare-management front end: theme flag, route guard and login handler

    A shallow embedding of the two source files of the client,

    - [frontend/src/pages/guardianhome.jsx], which also carries the root
      component [App]: the [darkMode] state with its [useState]
      initializer and its [useEffect], [toggleTheme], [PrivateRoute] and
      the route table;
    - [frontend/src/pages/login.jsx]: the asynchronous [handleSubmit].

    The JavaScript values these functions touch are JSON data (what
    [JSON.parse] returns and what the authentication service answers),
    so module [JS] models that fragment of the language: the value type,
    [ToBoolean], property reads, [ToString], [JSON.parse] and
    [JSON.stringify].  Module [AppShell] embeds [App]; module [LoginPage]
    embeds [handleSubmit] in a small trace-and-exception monad.  The
    properties of the three modules follow the definitions. *)

From Stdlib Require Import ZArith NArith Ascii String List Bool Lia.
From stdpp Require Import gmap strings list.

#[local] Set Warnings "-register-all,-clear-no-such-hyp".
#[local] Open Scope string_scope.

(* ================================================================== *)
(** * Part I: definitions *)
(* ================================================================== *)

Module JS.

(** ** Values *)

(** A Number is kept as the decimal that denotes it,
    [(-1)^num_neg * num_mant * 10^num_exp10]; the value meant is the
    binary64 nearest to that decimal.  Nothing below compares two
    Numbers, so two decimals of one double are never confused. *)
Record JsNumber := { num_neg : bool; num_mant : N; num_exp10 : Z }.

(** Strings are byte strings holding UTF-8 (a lone surrogate that a
    [\u] escape names is kept in the generalized three-byte form).
    An object is the list of its own enumerable data properties in
    creation order, each key at most once. *)
Inductive JsVal :=
| JUndefined
| JNull
| JBool (b : bool)
| JNum (n : JsNumber)
| JStr (s : string)
| JArr (elems : list JsVal)
| JObj (props : list (string * JsVal)).

(** What a [throw] carries: a value (a rejected promise's reason), or
    one of the two native errors raised by the operations modelled
    here. *)
Inductive NativeError := TypeError | SyntaxError.

Inductive Thrown :=
| ThrowValue (v : JsVal)
| ThrowNative (k : NativeError).

Inductive Completion (A : Type) :=
| Normal (a : A)
| Throw (e : Thrown).
Arguments Normal {A} a.
Arguments Throw {A} e.

Definition bindC {A B} (c : Completion A) (k : A -> Completion B) : Completion B :=
  match c with
  | Normal a => k a
  | Throw e => Throw e
  end.

(** ** ToBoolean *)

(** A decimal at most 2^-1075 in magnitude rounds to (plus or minus)
    zero, the tie going to the even neighbour, which is zero. *)
Definition rounds_to_zero (n : JsNumber) : bool :=
  (num_mant n =? 0)%N
  || ((num_exp10 n <? 0)%Z
      && (Z.of_N (num_mant n) * 2 ^ 1075 <=? 10 ^ (- num_exp10 n))%Z).

(** A decimal of magnitude at least 2^1024 - 2^970, half way between
    the largest double and 2^1024, rounds to an infinity. *)
Definition rounds_to_infinity (n : JsNumber) : bool :=
  if (num_exp10 n <? 0)%Z
  then ((2 ^ 1024 - 2 ^ 970) * 10 ^ (- num_exp10 n) <=? Z.of_N (num_mant n))%Z
  else (2 ^ 1024 - 2 ^ 970 <=? Z.of_N (num_mant n) * 10 ^ num_exp10 n)%Z.

Definition nonempty (s : string) : bool :=
  match s with
  | EmptyString => false
  | String _ _ => true
  end.

(** The truth value of a condition: [v ? _ : _], [if (v)], [!v], [v || _]. *)
Definition truthy (v : JsVal) : bool :=
  match v with
  | JUndefined | JNull => false
  | JBool b => b
  | JNum n => negb (rounds_to_zero n)
  | JStr s => nonempty s
  | JArr _ | JObj _ => true
  end.

Definition nullish (v : JsVal) : bool :=
  match v with
  | JUndefined | JNull => true
  | _ => false
  end.

(** ** Property reads *)

(** The property names the two pages read.  None of them is a property
    of a built-in prototype, of an array or of a string, so a read finds
    an own property of an object or nothing. *)
Inductive PropertyKey := p_user | p_first_name | p_response | p_data | p_detail.

Definition key_name (p : PropertyKey) : string :=
  match p with
  | p_user => "user"
  | p_first_name => "first_name"
  | p_response => "response"
  | p_data => "data"
  | p_detail => "detail"
  end.

Fixpoint own_property (k : string) (props : list (string * JsVal)) : JsVal :=
  match props with
  | [] => JUndefined
  | (k', v) :: rest => if String.eqb k k' then v else own_property k rest
  end.

(** [v.p]: a TypeError on [undefined] and [null], the own property of an
    object, [undefined] on every other value. *)
Definition Get (v : JsVal) (p : PropertyKey) : Completion JsVal :=
  match v with
  | JUndefined | JNull => Throw (ThrowNative TypeError)
  | JObj props => Normal (own_property (key_name p) props)
  | _ => Normal JUndefined
  end.

(** [v?.p]: [undefined] when [v] is [undefined] or [null]. *)
Definition GetOptional (v : JsVal) (p : PropertyKey) : Completion JsVal :=
  if nullish v then Normal JUndefined else Get v p.

Fixpoint has_own (k : string) (props : list (string * JsVal)) : bool :=
  match props with
  | [] => false
  | (k', _) :: rest => String.eqb k k' || has_own k rest
  end.

(** Writing an own property: an existing key keeps its place. *)
Fixpoint set_property (k : string) (v : JsVal) (props : list (string * JsVal))
  : list (string * JsVal) :=
  match props with
  | [] => [(k, v)]
  | (k', v') :: rest =>
      if String.eqb k k' then (k, v) :: rest else (k', v') :: set_property k v rest
  end.

(** ** Characters *)

Definition code (c : ascii) : N := N_of_ascii c.
Definition chr (n : N) : ascii := ascii_of_N n.

Definition dquote : ascii := chr 34.
Definition backslash : ascii := chr 92.

Definition is_char (c : ascii) (n : N) : bool := (code c =? n)%N.

Definition hex_digit (n : N) : ascii :=
  if (n <? 10)%N then chr (48 + n) else chr (87 + n).

(** The four lower-case hexadecimal digits of a code unit. *)
Definition hex4 (u : N) : string :=
  String (hex_digit (u / 4096 mod 16))
    (String (hex_digit (u / 256 mod 16))
       (String (hex_digit (u / 16 mod 16))
          (String (hex_digit (u mod 16)) ""))).

(** UTF-8 (generalized to surrogates) of a code point. *)
Definition utf8 (cp : N) : string :=
  if (cp <? 128)%N then String (chr cp) ""
  else if (cp <? 2048)%N then
    String (chr (192 + cp / 64)) (String (chr (128 + cp mod 64)) "")
  else if (cp <? 65536)%N then
    String (chr (224 + cp / 4096))
      (String (chr (128 + cp / 64 mod 64)) (String (chr (128 + cp mod 64)) ""))
  else
    String (chr (240 + cp / 262144))
      (String (chr (128 + cp / 4096 mod 64))
         (String (chr (128 + cp / 64 mod 64)) (String (chr (128 + cp mod 64)) ""))).

(** ** JSON.parse *)

(** The result of reading a prefix of a text: the value read and the
    rest of the text, a syntax error, or no fuel left for the nesting
    (which [JSON_parse] never meets, see [parse_value_fuel]). *)
Inductive Parsed (A : Type) :=
| Consumed (a : A) (rest : string)
| Malformed
| Exhausted.
Arguments Consumed {A} a rest.
Arguments Malformed {A}.
Arguments Exhausted {A}.

(** JSON white space: space, tab, line feed, carriage return. *)
Definition is_ws (c : ascii) : bool :=
  is_char c 32 || is_char c 9 || is_char c 10 || is_char c 13.

Fixpoint skip_ws (s : string) : string :=
  match s with
  | String c rest => if is_ws c then skip_ws rest else s
  | EmptyString => s
  end.

Definition digit_value (c : ascii) : option N :=
  let n := code c in
  if (48 <=? n)%N && (n <=? 57)%N then Some (n - 48)%N else None.

Definition hex_value (c : ascii) : option N :=
  let n := code c in
  if (48 <=? n)%N && (n <=? 57)%N then Some (n - 48)%N
  else if (65 <=? n)%N && (n <=? 70)%N then Some (n - 55)%N
  else if (97 <=? n)%N && (n <=? 102)%N then Some (n - 87)%N
  else None.

(** The longest run of decimal digits at the head of [s], accumulated
    on [acc], with the number of digits read. *)
Fixpoint digits (s : string) (acc : N) (count : nat) : N * nat * string :=
  match s with
  | String c rest =>
      match digit_value c with
      | Some d => digits rest (acc * 10 + d)%N (S count)
      | None => (acc, count, s)
      end
  | EmptyString => (acc, count, s)
  end.

(** At least one digit, read as an exponent of the given sign. *)
Definition exponent_digits (sign : Z) (s : string) : option (Z * string) :=
  let '(v, n, rest) := digits s 0%N 0 in
  match n with
  | O => None
  | S _ => Some ((sign * Z.of_N v)%Z, rest)
  end.

(** After [e] or [E]: an optional sign and at least one digit. *)
Definition parse_exponent (s : string) : option (Z * string) :=
  match s with
  | String c r =>
      if is_char c 43 then exponent_digits 1 r
      else if is_char c 45 then exponent_digits (-1) r
      else exponent_digits 1 s
  | EmptyString => None
  end.

(** The exponent part, if there is one. *)
Definition parse_exponent_part (s : string) : option (Z * string) :=
  match s with
  | String c r =>
      if is_char c 101 || is_char c 69 then parse_exponent r else Some (0%Z, s)
  | EmptyString => Some (0%Z, s)
  end.

(** After the integer part: an optional [.] with at least one digit.
    The digits go on the mantissa and are counted. *)
Definition parse_fraction (int : N) (s : string) : option (N * nat * string) :=
  match s with
  | String c r =>
      if is_char c 46 then
        let '(v, n, rest) := digits r int 0 in
        match n with
        | O => None
        | S _ => Some (v, n, rest)
        end
      else Some (int, 0, s)
  | EmptyString => Some (int, 0, s)
  end.

(** The integer part: [0], or a digit run that does not start with [0]. *)
Definition parse_integer (s : string) : option (N * string) :=
  match s with
  | String c r =>
      match digit_value c with
      | Some d =>
          if (d =? 0)%N then Some (0%N, r)
          else let '(v, _, rest) := digits r d 1 in Some (v, rest)
      | None => None
      end
  | EmptyString => None
  end.

Definition parse_unsigned (neg : bool) (s : string) : Parsed JsNumber :=
  match parse_integer s with
  | None => Malformed
  | Some (int, s1) =>
      match parse_fraction int s1 with
      | None => Malformed
      | Some (mant, places, s2) =>
          match parse_exponent_part s2 with
          | None => Malformed
          | Some (e, s3) =>
              Consumed {| num_neg := neg; num_mant := mant;
                          num_exp10 := (e - Z.of_nat places)%Z |} s3
          end
      end
  end.

(** A JSON number: an optional minus, the integer part, an optional
    fraction, an optional exponent. *)
Definition parse_number (s : string) : Parsed JsNumber :=
  match s with
  | String c r =>
      if is_char c 45 then parse_unsigned true r else parse_unsigned false s
  | EmptyString => Malformed
  end.

(** The pieces of a string literal: a byte of the text, or the code
    unit a [\u] escape names. *)
Inductive StrItem :=
| Raw (c : ascii)
| Unit16 (u : N).

Definition simple_escape (c : ascii) : option ascii :=
  let n := code c in
  if (n =? 34)%N then Some dquote
  else if (n =? 92)%N then Some backslash
  else if (n =? 47)%N then Some (chr 47)
  else if (n =? 98)%N then Some (chr 8)
  else if (n =? 102)%N then Some (chr 12)
  else if (n =? 110)%N then Some (chr 10)
  else if (n =? 114)%N then Some (chr 13)
  else if (n =? 116)%N then Some (chr 9)
  else None.

Definition hex_unit (h1 h2 h3 h4 : ascii) : option N :=
  match hex_value h1, hex_value h2, hex_value h3, hex_value h4 with
  | Some a, Some b, Some c, Some d => Some (a * 4096 + b * 256 + c * 16 + d)%N
  | _, _, _, _ => None
  end.

(** The characters of a string literal after its opening quote, up to
    the closing quote: no raw control character, and only the escapes
    of the grammar. *)
Fixpoint string_chars (s : string) (acc : list StrItem) : Parsed (list StrItem) :=
  match s with
  | EmptyString => Malformed
  | String c rest =>
      if is_char c 34 then Consumed (rev acc) rest
      else if is_char c 92 then
        match rest with
        | EmptyString => Malformed
        | String e rest1 =>
            if is_char e 117 then
              match rest1 with
              | String h1 (String h2 (String h3 (String h4 rest2))) =>
                  match hex_unit h1 h2 h3 h4 with
                  | Some u => string_chars rest2 (Unit16 u :: acc)
                  | None => Malformed
                  end
              | _ => Malformed
              end
            else
              match simple_escape e with
              | Some c' => string_chars rest1 (Raw c' :: acc)
              | None => Malformed
              end
        end
      else if (code c <? 32)%N then Malformed
      else string_chars rest (Raw c :: acc)
  end.

Definition high_surrogate (u : N) : bool := (55296 <=? u)%N && (u <? 56320)%N.
Definition low_surrogate (u : N) : bool := (56320 <=? u)%N && (u <? 57344)%N.

(** The string the pieces spell: a high surrogate followed by a low one
    is one code point. *)
Fixpoint encode_items (l : list StrItem) : string :=
  match l with
  | [] => ""
  | Raw c :: l1 => String c (encode_items l1)
  | Unit16 hi :: l1 =>
      match l1 with
      | Unit16 lo :: l2 =>
          if high_surrogate hi && low_surrogate lo
          then utf8 (65536 + (hi - 55296) * 1024 + (lo - 56320)) ++ encode_items l2
          else utf8 hi ++ encode_items l1
      | _ => utf8 hi ++ encode_items l1
      end
  end.

Fixpoint strip_prefix (p s : string) : option string :=
  match p with
  | EmptyString => Some s
  | String a p' =>
      match s with
      | String b s' => if Ascii.eqb a b then strip_prefix p' s' else None
      | EmptyString => None
      end
  end.

Definition parse_literal (word : string) (v : JsVal) (s : string) : Parsed JsVal :=
  match strip_prefix word s with
  | Some rest => Consumed v rest
  | None => Malformed
  end.

(** The elements of an array after the first has been found to exist:
    a value, then [,] and another element or the closing bracket. *)
Fixpoint parse_elements (pv : string -> Parsed JsVal) (n : nat) (s : string)
    (acc : list JsVal) : Parsed JsVal :=
  match n with
  | O => Exhausted
  | S n' =>
      match pv s with
      | Consumed v rest =>
          match skip_ws rest with
          | String c rest' =>
              if is_char c 44 then parse_elements pv n' rest' (v :: acc)
              else if is_char c 93 then Consumed (JArr (rev (v :: acc))) rest'
              else Malformed
          | EmptyString => Malformed
          end
      | Malformed => Malformed
      | Exhausted => Exhausted
      end
  end.

(** The members of an object: a string, [:], a value, then [,] and
    another member or the closing brace.  A repeated key keeps its first
    place and takes the last value. *)
Fixpoint parse_members (pv : string -> Parsed JsVal) (n : nat) (s : string)
    (acc : list (string * JsVal)) : Parsed JsVal :=
  match n with
  | O => Exhausted
  | S n' =>
      match skip_ws s with
      | String c rest =>
          if is_char c 34 then
            match string_chars rest [] with
            | Consumed items r1 =>
                match skip_ws r1 with
                | String c1 r2 =>
                    if is_char c1 58 then
                      match pv r2 with
                      | Consumed v r3 =>
                          let acc' := set_property (encode_items items) v acc in
                          match skip_ws r3 with
                          | String c3 r4 =>
                              if is_char c3 44 then parse_members pv n' r4 acc'
                              else if is_char c3 125 then Consumed (JObj acc') r4
                              else Malformed
                          | EmptyString => Malformed
                          end
                      | Malformed => Malformed
                      | Exhausted => Exhausted
                      end
                    else Malformed
                | EmptyString => Malformed
                end
            | _ => Malformed
            end
          else Malformed
      | EmptyString => Malformed
      end
  end.

(** One JSON value after optional white space. *)
Fixpoint parse_value (fuel : nat) (s : string) : Parsed JsVal :=
  match fuel with
  | O => Exhausted
  | S fuel' =>
      match skip_ws s with
      | EmptyString => Malformed
      | String c rest =>
          if is_char c 123 then
            match skip_ws rest with
            | String c' rest' =>
                if is_char c' 125 then Consumed (JObj []) rest'
                else parse_members (parse_value fuel') fuel' rest []
            | EmptyString => Malformed
            end
          else if is_char c 91 then
            match skip_ws rest with
            | String c' rest' =>
                if is_char c' 93 then Consumed (JArr []) rest'
                else parse_elements (parse_value fuel') fuel' rest []
            | EmptyString => Malformed
            end
          else if is_char c 34 then
            match string_chars rest [] with
            | Consumed items r => Consumed (JStr (encode_items items)) r
            | _ => Malformed
            end
          else if is_char c 116 then parse_literal "true" (JBool true) (String c rest)
          else if is_char c 102 then parse_literal "false" (JBool false) (String c rest)
          else if is_char c 110 then parse_literal "null" JNull (String c rest)
          else
            match parse_number (String c rest) with
            | Consumed n r => Consumed (JNum n) r
            | _ => Malformed
            end
      end
  end.

(** [JSON.parse(text)]: one value with white space around it, or a
    SyntaxError. *)
Definition JSON_parse (text : string) : Completion JsVal :=
  match parse_value (S (String.length text)) text with
  | Consumed v rest =>
      match skip_ws rest with
      | EmptyString => Normal v
      | String _ _ => Throw (ThrowNative SyntaxError)
      end
  | Malformed | Exhausted => Throw (ThrowNative SyntaxError)
  end.

(** The characters a JSON value starts with: a brace, a bracket, a
    quote, the first letter of [true], [false] and [null], a minus or a
    digit. *)
Definition starts_value (c : ascii) : bool :=
  is_char c 123 || is_char c 91 || is_char c 34
  || is_char c 116 || is_char c 102 || is_char c 110
  || is_char c 45
  || match digit_value c with Some _ => true | None => false end.

(** A reader of values that always consumes input. *)
Definition consuming (pv : string -> Parsed JsVal) : Prop :=
  forall s v rest, pv s = Consumed v rest -> String.length rest < String.length s.

(** ** JSON.stringify and ToString *)

(** The JSON text of a boolean. *)
Definition boolean_word (b : bool) : string := if b then "true" else "false".

(** The body of a quoted JSON string: the two-character escapes, a
    [\u] escape for the other control characters and for a lone
    surrogate, every other character as it is. *)
Fixpoint quote_chars (s : string) : string :=
  match s with
  | EmptyString => ""
  | String c rest =>
      let n := code c in
      if (n =? 34)%N then String backslash (String dquote (quote_chars rest))
      else if (n =? 92)%N then String backslash (String backslash (quote_chars rest))
      else if (n =? 8)%N then String backslash (String (chr 98) (quote_chars rest))
      else if (n =? 9)%N then String backslash (String (chr 116) (quote_chars rest))
      else if (n =? 10)%N then String backslash (String (chr 110) (quote_chars rest))
      else if (n =? 12)%N then String backslash (String (chr 102) (quote_chars rest))
      else if (n =? 13)%N then String backslash (String (chr 114) (quote_chars rest))
      else if (n <? 32)%N then
        String backslash (String (chr 117) (hex4 n ++ quote_chars rest))
      else
        match rest with
        | String c2 (String c3 rest3) =>
            if (n =? 237)%N && (160 <=? code c2)%N && (code c2 <? 192)%N
               && (128 <=? code c3)%N && (code c3 <? 192)%N
            then String backslash
                   (String (chr 117)
                      (hex4 (53248 + (code c2 - 128) * 64 + (code c3 - 128))
                       ++ quote_chars rest3))
            else String c (quote_chars rest)
        | _ => String c (quote_chars rest)
        end
  end.

Definition quote (s : string) : string :=
  String dquote (quote_chars s ++ String dquote "").

Fixpoint join_comma (l : list string) : string :=
  match l with
  | [] => ""
  | [x] => x
  | x :: rest => x ++ "," ++ join_comma rest
  end.

(** An array index: the canonical decimal of an integer below 2^32 - 1. *)
Definition array_index (k : string) : option N :=
  match k with
  | EmptyString => None
  | String c rest =>
      let '(v, n, tail) := digits k 0%N 0 in
      if nonempty tail then None
      else if is_char c 48 && nonempty rest then None
      else if (v <? 4294967295)%N then Some v
      else None
  end.

Fixpoint insert_by_index {X} (i : N) (x : X) (l : list (N * X)) : list (N * X) :=
  match l with
  | [] => [(i, x)]
  | (j, y) :: rest =>
      if (i <? j)%N then (i, x) :: l else (j, y) :: insert_by_index i x rest
  end.

(** The order in which the own properties of an object are listed:
    array indices by value, then the other keys as created. *)
Definition enumeration_order {X} (l : list (string * X)) : list (string * X) :=
  let indexed :=
    fold_right
      (fun kx acc =>
         match array_index (fst kx) with
         | Some i => insert_by_index i kx acc
         | None => acc
         end) [] l in
  List.map snd indexed
  ++ List.filter (fun kx => match array_index (fst kx) with Some _ => false | None => true end) l.

Section NumberToString.

(** Number::toString, the shortest decimal that reads back as the
    double (with [Infinity] and [-Infinity]); the pages never depend on
    what it prints. *)
Variable Number_toString : JsNumber -> string.

(** JSON text of a value, [None] where JavaScript answers [undefined].
    JSON data has no callable [toJSON].  The text is the one the
    language defines for every value; an engine that runs out of stack
    on a deeply nested value (a RangeError) is outside the model, and
    nothing below is stated of such values. *)
Fixpoint JSON_stringify (v : JsVal) : option string :=
  match v with
  | JUndefined => None
  | JNull => Some "null"
  | JBool b => Some (boolean_word b)
  | JNum n => Some (if rounds_to_infinity n then "null" else Number_toString n)
  | JStr s => Some (quote s)
  | JArr elems =>
      Some ("[" ++ join_comma
                     (List.map (fun e => match JSON_stringify e with
                                         | Some t => t
                                         | None => "null"
                                         end) elems)
                ++ "]")
  | JObj props =>
      let members := List.map (fun '(k, x) => (k, JSON_stringify x)) props in
      Some ("{" ++ join_comma
                     (flat_map (fun '(k, t) => match t with
                                               | Some t' => [quote k ++ ":" ++ t']
                                               | None => []
                                               end)
                               (enumeration_order members))
                ++ "}")
  end.

(** ToString, as a template literal applies it.  An object of JSON data
    prints as [[object Object]] unless an own [toString] property hides
    the inherited method: its value is not callable, [valueOf] gives
    back the object, and the conversion ends in a TypeError.  An array
    joins its elements, [undefined] and [null] printing as nothing. *)
Fixpoint ToString (v : JsVal) : Completion string :=
  match v with
  | JUndefined => Normal "undefined"
  | JNull => Normal "null"
  | JBool b => Normal (boolean_word b)
  | JNum n => Normal (Number_toString n)
  | JStr s => Normal s
  | JArr elems =>
      (fix join (l : list JsVal) (first : bool) : Completion string :=
         match l with
         | [] => Normal ""
         | e :: l' =>
             bindC (if nullish e then Normal "" else ToString e) (fun s =>
             bindC (join l' false) (fun r =>
             Normal ((if first then "" else ",") ++ s ++ r)))
         end) elems true
  | JObj props =>
      if has_own "toString" props then Throw (ThrowNative TypeError)
      else Normal "[object Object]"
  end.

End NumberToString.

(** A printer for the examples, which hold no Number. *)
Definition no_numbers (n : JsNumber) : string := "".

End JS.

Module AppShell.
Import JS.

(** ** The browser state that [App] reads and writes *)

(** [localStorage] maps keys to strings; [classList] is the class list
    of [document.documentElement]. *)
Record Browser := {
  localStorage : gmap string string;
  classList : gset string
}.

(** [localStorage.getItem(key)]: [None] stands for [null]. *)
Definition getItem (key : string) (br : Browser) : option string :=
  localStorage br !! key.

(** [localStorage.setItem(key, value)]: the value is stored as a
    string, [undefined] as the string of that name. *)
Definition setItem (key : string) (value : option string) (br : Browser) : Browser :=
  {| localStorage :=
       <[key := match value with Some text => text | None => "undefined" end]>
         (localStorage br);
     classList := classList br |}.

Definition classList_add (c : string) (br : Browser) : Browser :=
  {| localStorage := localStorage br; classList := {[c]} ∪ classList br |}.

Definition classList_remove (c : string) (br : Browser) : Browser :=
  {| localStorage := localStorage br; classList := classList br ∖ {[c]} |}.

(** ** Elements *)

(** What a route renders: a page, [<Navigate to=... />], or
    [<PrivateRoute>children</PrivateRoute>]. *)
Inductive Element :=
| Login
| Register
| GuardianHome
| UserHome
| Navigate (to : string)
| Private (children : Element).

(** The state of the mounted component. *)
Record AppState := {
  darkMode : JsVal;
  browser : Browser
}.

Section App.

Variable Number_toString : JsNumber -> string.

(** [authService.isAuthenticated], from [../services/auth]: what it
    answers when a guarded route renders. *)
Variable isAuthenticated : unit -> JsVal.

(** ** The theme flag (guardianhome.jsx, lines 55-69) *)

(** The initializer of [useState]:
    [saved ? JSON.parse(saved) : true]. *)
Definition darkMode_initializer (br : Browser) : Completion JsVal :=
  let saved := getItem "darkMode" br in
  match saved with
  | Some text => if truthy (JStr text) then JSON_parse text else Normal (JBool true)
  | None => Normal (JBool true)
  end.

(** The effect of [useEffect(..., [darkMode])]. *)
Definition darkMode_effect (darkMode : JsVal) (br : Browser) : Browser :=
  let br1 := setItem "darkMode" (JSON_stringify Number_toString darkMode) br in
  if truthy darkMode then classList_add "dark" br1 else classList_remove "dark" br1.

(** Mounting [App]: the initializer gives the state, then the effect
    runs once. *)
Definition mount (br : Browser) : Completion AppState :=
  bindC (darkMode_initializer br) (fun d =>
  Normal {| darkMode := d; browser := darkMode_effect d br |}).

(** [Object.is(v, b)] for a boolean [b]. *)
Definition is_boolean (v : JsVal) (b : bool) : bool :=
  match v with
  | JBool b' => Bool.eqb b' b
  | _ => false
  end.

(** [toggleTheme = () => setDarkMode(!darkMode)]: the state changes
    and the effect runs again unless the new value is the old one. *)
Definition toggleTheme (st : AppState) : AppState :=
  let next := negb (truthy (darkMode st)) in
  if is_boolean (darkMode st) next then st
  else {| darkMode := JBool next;
          browser := darkMode_effect (JBool next) (browser st) |}.

(** The state after [n] clicks on the theme button. *)
Fixpoint toggles (n : nat) (st : AppState) : AppState :=
  match n with
  | O => st
  | S n' => toggles n' (toggleTheme st)
  end.

(** ** The route guard and the routes (lines 71-99) *)

Definition PrivateRoute (children : Element) : Element :=
  if truthy (isAuthenticated tt) then children else Navigate "/login".

Definition routes : list (string * Element) :=
  [ ("/login", Login);
    ("/register", Register);
    ("/guardian", Private GuardianHome);
    ("/user", Private UserHome);
    ("/", Navigate "/login") ].

(** [<Routes>]: the element of the route whose path is the location,
    nothing when there is none.  The paths are compared as written
    (react-router would also take a trailing slash or another case for
    the same route). *)
Fixpoint match_route (location : string) (rs : list (string * Element))
  : option Element :=
  match rs with
  | [] => None
  | (path, element) :: rest =>
      if String.eqb path location then Some element else match_route location rest
  end.

(** Rendering an element runs the component it names. *)
Definition render (e : Element) : Element :=
  match e with
  | Private children => PrivateRoute children
  | _ => e
  end.

Definition Routes (location : string) : option Element :=
  match match_route location routes with
  | Some e => Some (render e)
  | None => None
  end.

End App.

(** ** What the storage may hold when [App] mounts *)

(** A browser that holds no theme yet, and one that holds [text] under
    the key [darkMode]. *)
Definition fresh : Browser := {| localStorage := ∅; classList := ∅ |}.

Definition stored (text : string) : Browser :=
  {| localStorage := {["darkMode" := text]}; classList := ∅ |}.

(** The flag is the boolean [b], and the text stored under [darkMode]
    is the JSON of [b]. *)
Definition flag_is (b : bool) (st : AppState) : Prop :=
  darkMode st = JBool b /\ getItem "darkMode" (browser st) = Some (boolean_word b).

(** The text is the word [true] or [false] of the boolean [b], with
    JSON white space, if any, before and after it. *)
Definition boolean_text (b : bool) (text : string) : Prop :=
  exists tail, strip_prefix (boolean_word b) (skip_ws text) = Some tail
               /\ skip_ws tail = "".

(** What the storage holds when the flag starts as the boolean [b]:
    nothing or the empty string, and [b] is [true]; or a text of [b]. *)
Definition holds_boolean (br : Browser) (b : bool) : Prop :=
  match getItem "darkMode" br with
  | None => b = true
  | Some text => (text = "" /\ b = true) \/ boolean_text b text
  end.

End AppShell.

Module LoginPage.
Import JS.

(** ** The page state and what the handler does to the outside *)

Record FormData := { email : string; password : string }.

(** The calls the handler makes, in the order it makes them:
    [e.preventDefault()], [setLoading(b)], the call of
    [authService.login] and the settling of its promise,
    [toast.success(message)], [toast.error(message)] and
    [navigate(path)].  The calls into the event, react-toastify and
    react-router are recorded and return. *)
Inductive Event :=
| PreventDefault
| SetLoading (b : bool)
| LoginCalled (formData : FormData)
| LoginResolved (response : JsVal)
| LoginRejected (reason : Thrown)
| ToastSuccess (message : string)
| ToastError (message : JsVal)
| NavigateTo (path : string).

(** The [loading] flag and the effects so far, oldest first. *)
Record PageState := {
  loading : bool;
  trace : list Event
}.

(** A computation of the handler: it changes the page state and either
    completes or throws. *)
Definition Handler (A : Type) : Type := PageState -> PageState * Completion A.

Definition ret {A} (a : A) : Handler A := fun st => (st, Normal a).

Definition bind {A B} (m : Handler A) (k : A -> Handler B) : Handler B :=
  fun st =>
    match m st with
    | (st1, Normal a) => k a st1
    | (st1, Throw e) => (st1, Throw e)
    end.

Definition lift {A} (c : Completion A) : Handler A := fun st => (st, c).

Definition emit (e : Event) : Handler unit :=
  fun st => ({| loading := loading st; trace := trace st ++ [e] |}, Normal tt).

(** [try { body } catch (error) { handler error }] *)
Definition try_catch {A} (body : Handler A) (handler : Thrown -> Handler A) : Handler A :=
  fun st =>
    match body st with
    | (st1, Normal a) => (st1, Normal a)
    | (st1, Throw e) => handler e st1
    end.

(** [try { body } finally { final }]: [final] always runs; what it
    throws replaces the completion of [body]. *)
Definition try_finally {A} (body : Handler A) (final : Handler unit) : Handler A :=
  fun st =>
    match body st with
    | (st1, c) =>
        match final st1 with
        | (st2, Normal _) => (st2, c)
        | (st2, Throw e) => (st2, Throw e)
        end
    end.

Notation "x <- c1 ;; c2" := (bind c1 (fun x => c2))
  (at level 100, c1 at next level, right associativity).
Notation "c1 ;; c2" := (bind c1 (fun _ => c2))
  (at level 100, right associativity).

Definition setLoading (b : bool) : Handler unit :=
  fun st => ({| loading := b; trace := trace st ++ [SetLoading b] |}, Normal tt).

(** The page before the form is submitted. *)
Definition idle : PageState := {| loading := false; trace := [] |}.

(** The submit button, [disabled={loading}] (line 97). *)
Definition button_disabled (st : PageState) : bool := loading st.

Section Login.

Variable Number_toString : JsNumber -> string.

(** [t] of [useTranslation]: the text of a translation key. *)
Variable t : string -> string.

(** [authService.login], from [../services/auth]: how the promise it
    returns settles for the submitted form. *)
Variable login : FormData -> Completion JsVal.

(** [authService.isGuardian]: what it answers after a login. *)
Variable isGuardian : unit -> JsVal.

(** [await authService.login(formData)], for one submission on its
    own: the handler goes on when the promise has settled, and no other
    handler runs in between.  Submissions that overlap are run turn by
    turn, with [handleSubmit_begin] and [handleSubmit_resume] below. *)
Definition await_login (formData : FormData) : Handler JsVal :=
  emit (LoginCalled formData) ;;
  match login formData with
  | Normal response => emit (LoginResolved response) ;; ret response
  | Throw reason => emit (LoginRejected reason) ;; lift (Throw reason)
  end.

(** [error.response?.data?.detail]: a native error has no [response]. *)
Definition error_detail (error : Thrown) : Completion JsVal :=
  match error with
  | ThrowNative _ => Normal JUndefined
  | ThrowValue v =>
      bindC (Get v p_response) (fun response =>
      if nullish response then Normal JUndefined
      else bindC (Get response p_data) (fun data =>
           GetOptional data p_detail))
  end.

(** The [try] block of [handleSubmit] (login.jsx, lines 22-29). *)
Definition try_block (formData : FormData) : Handler unit :=
  response <- await_login formData ;;
  let welcome := t "auth.welcomeBack" in
  user <- lift (Get response p_user) ;;
  first_name <- lift (Get user p_first_name) ;;
  name <- lift (ToString Number_toString first_name) ;;
  emit (ToastSuccess (welcome ++ ", " ++ name ++ "!")) ;;
  if truthy (isGuardian tt)
  then emit (NavigateTo "/guardian")
  else emit (NavigateTo "/user").

(** The [catch] block (line 31):
    [toast.error(error.response?.data?.detail || 'Login failed')]. *)
Definition catch_block (error : Thrown) : Handler unit :=
  detail <- lift (error_detail error) ;;
  emit (ToastError (if truthy detail then detail else JStr "Login failed")).

(** [handleSubmit] (lines 17-35). *)
Definition handleSubmit (formData : FormData) : Handler unit :=
  emit PreventDefault ;;
  setLoading true ;;
  try_finally
    (try_catch (try_block formData) catch_block)
    (setLoading false).

(** One submission of the form, from the idle page. *)
Definition submit (formData : FormData) : PageState * Completion unit :=
  handleSubmit formData idle.

(** ** The handler around its [await] *)

(** [handleSubmit] runs in two turns of the event loop: up to the
    [await] (lines 18-22) when the form is submitted, and from the
    [await] on (lines 22-34) when the promise of [authService.login] has
    settled.  Other handlers may run between the two. *)
Definition handleSubmit_begin (formData : FormData) : Handler unit :=
  emit PreventDefault ;;
  setLoading true ;;
  emit (LoginCalled formData).

(** The [try] block from the [await] on. *)
Definition try_block_resumed (formData : FormData) : Handler unit :=
  response <- match login formData with
              | Normal response => emit (LoginResolved response) ;; ret response
              | Throw reason => emit (LoginRejected reason) ;; lift (Throw reason)
              end ;;
  let welcome := t "auth.welcomeBack" in
  user <- lift (Get response p_user) ;;
  first_name <- lift (Get user p_first_name) ;;
  name <- lift (ToString Number_toString first_name) ;;
  emit (ToastSuccess (welcome ++ ", " ++ name ++ "!")) ;;
  if truthy (isGuardian tt)
  then emit (NavigateTo "/guardian")
  else emit (NavigateTo "/user").

Definition handleSubmit_resume (formData : FormData) : Handler unit :=
  try_finally
    (try_catch (try_block_resumed formData) catch_block)
    (setLoading false).

(** A turn of the event loop on the login page: a submission of the
    form, or the settling of the request of an earlier submission. *)
Inductive Turn :=
| Submitted (formData : FormData)
| Settled (formData : FormData).

Definition turn (tn : Turn) : Handler unit :=
  match tn with
  | Submitted formData => handleSubmit_begin formData
  | Settled formData => handleSubmit_resume formData
  end.

(** The page after some turns, oldest first.  What a turn throws is an
    unhandled rejection of its own promise and stops no other turn. *)
Definition event_loop (turns : list Turn) (st : PageState) : PageState :=
  fold_left (fun page tn => fst (turn tn page)) turns st.

(** ** A submission, flat *)

(** The same handler read off as a list of effects, for the proofs:
    [handleSubmit_run] shows that [handleSubmit] does exactly this. *)

(** The text of the welcome toast, when the user and the first name of
    the response can be read and printed. *)
Definition welcome (response : JsVal) : Completion string :=
  bindC (Get response p_user) (fun user =>
  bindC (Get user p_first_name) (fun first_name =>
  bindC (ToString Number_toString first_name) (fun name =>
  Normal (t "auth.welcomeBack" ++ ", " ++ name ++ "!")))).

Definition role_route : string :=
  if truthy (isGuardian tt) then "/guardian" else "/user".

Definition error_toast (error : Thrown) : list Event :=
  match error_detail error with
  | Normal detail => [ToastError (if truthy detail then detail else JStr "Login failed")]
  | Throw _ => []
  end.

Definition settled (outcome : Completion JsVal) : Event :=
  match outcome with
  | Normal response => LoginResolved response
  | Throw reason => LoginRejected reason
  end.

(** The effects after the request has settled, and how the handler
    completes. *)
Definition after_settled (outcome : Completion JsVal) : list Event * Completion unit :=
  let caught error :=
    (error_toast error, bindC (error_detail error) (fun _ => Normal tt)) in
  match outcome with
  | Normal response =>
      match welcome response with
      | Normal message => ([ToastSuccess message; NavigateTo role_route], Normal tt)
      | Throw error => caught error
      end
  | Throw reason => caught reason
  end.

End Login.

(** The response of a login carries no user: reading [response.user]
    throws or gives [undefined] or [null]. *)
Definition user_absent (response : JsVal) : Prop :=
  match Get response p_user with
  | Normal user => nullish user = true
  | Throw _ => True
  end.

(** ** Reading a trace *)

(** How many events of a trace satisfy [p]. *)
Definition count (p : Event -> bool) (events : list Event) : nat :=
  length (List.filter p events).

(** The events of a submission up to the settling of the request. *)
Fixpoint before_settled (events : list Event) : list Event :=
  match events with
  | [] => []
  | e :: rest =>
      match e with
      | LoginResolved _ | LoginRejected _ => []
      | _ => e :: before_settled rest
      end
  end.

Definition is_navigation (e : Event) : bool :=
  match e with NavigateTo _ => true | _ => false end.

Definition is_error_toast (e : Event) : bool :=
  match e with ToastError _ => true | _ => false end.

Definition is_toast (e : Event) : bool :=
  match e with ToastSuccess _ | ToastError _ => true | _ => false end.

Definition is_request (e : Event) : bool :=
  match e with LoginCalled _ => true | _ => false end.

Definition is_settled (e : Event) : bool :=
  match e with LoginResolved _ | LoginRejected _ => true | _ => false end.

(** ** Sample inputs *)

(** A translation function that answers the key itself, as i18next
    does for a key without a translation. *)
Definition untranslated (key : string) : string := key.

Definition sample_form : FormData :=
  {| email := "asha@example.com"; password := "secret" |}.

(** A login answer that carries a user, and one that does not. *)
Definition answer_with_user : JsVal :=
  JObj [("access", JStr "token"); ("user", JObj [("first_name", JStr "Asha")])].

Definition answer_without_user : JsVal :=
  JObj [("access", JStr "token")].

(** The error of a refused login, as an HTTP client reports it. *)
Definition refused : JsVal :=
  JObj [("response", JObj [("data", JObj [("detail", JStr "Invalid credentials")])])].

End LoginPage.

Module AppView.
Import JS AppShell.

(** ** What [App] and the pages show of the theme *)

(** The icon of the theme button, [darkMode ? <FiSun /> : <FiMoon />]
    (login.jsx, line 43; guardianhome.jsx, line 28). *)
Inductive Icon := FiSun | FiMoon.

Definition theme_icon (darkMode : JsVal) : Icon :=
  if truthy darkMode then FiSun else FiMoon.

(** The class of the [div] around the routes,
    [className={darkMode ? 'dark' : ''}] (guardianhome.jsx, line 78). *)
Definition wrapper_className (darkMode : JsVal) : string :=
  if truthy darkMode then "dark" else "".

(** The theme of the toast container,
    [theme={darkMode ? 'dark' : 'light'}] (line 104). *)
Definition toast_theme (darkMode : JsVal) : string :=
  if truthy darkMode then "dark" else "light".

(** A reload keeps the storage; the class list is the one of the
    document as served. *)
Definition reload (document_classes : gset string) (br : Browser) : Browser :=
  {| localStorage := localStorage br; classList := document_classes |}.

Section Reach.

Variable Number_toString : JsNumber -> string.

(** The states of [App]: mounted on some browser, then toggled any
    number of times. *)
Inductive Reachable : AppState -> Prop :=
| reach_mount br st :
    mount Number_toString br = Normal st -> Reachable st
| reach_toggle st :
    Reachable st -> Reachable (toggleTheme Number_toString st).

(** The effect has run for the current flag, and the flag is a value
    that JSON can print. *)
Definition in_sync (st : AppState) : Prop :=
  darkMode st <> JUndefined
  /\ exists br, browser st = darkMode_effect Number_toString (darkMode st) br.

(** The effect run [n] times in a row, as a development build under
    [React.StrictMode] runs it twice (guardianhome.jsx, lines 136-140). *)
Fixpoint rerun (n : nat) (darkMode : JsVal) (br : Browser) : Browser :=
  match n with
  | O => br
  | S n' => rerun n' darkMode (darkMode_effect Number_toString darkMode br)
  end.

End Reach.

Section Settle.

Variable isAuthenticated : unit -> JsVal.

(** [<Navigate to=... />] replaces the location when it renders, and
    the routes render again: what is on the screen after at most
    [fuel] redirects. *)
Fixpoint settle (fuel : nat) (location : string) : option Element :=
  match Routes isAuthenticated location with
  | Some (Navigate to) =>
      match fuel with
      | O => Some (Navigate to)
      | S fuel' => settle fuel' to
      end
  | shown => shown
  end.

End Settle.

Section Router.

Variable isAuthenticated : unit -> JsVal.

(** The entry of the route table that the router matches with a
    location, if any.  react-router compares by rules of its own (it
    takes another case and trailing slashes for the same route); of
    these rules only the entry picked is used. *)
Variable pick : string -> option (string * Element).

(** [<Routes>] with that router. *)
Definition Routes_by (location : string) : option Element :=
  match pick location with
  | Some (_, element) => Some (render isAuthenticated element)
  | None => None
  end.

(** What is on the screen after at most [fuel] redirects. *)
Fixpoint settle_by (fuel : nat) (location : string) : option Element :=
  match Routes_by location with
  | Some (Navigate to) =>
      match fuel with
      | O => Some (Navigate to)
      | S fuel' => settle_by fuel' to
      end
  | shown => shown
  end.

End Router.

(** The router picks entries of the table only. *)
Definition picks_from (table : list (string * Element))
    (pick : string -> option (string * Element)) : Prop :=
  forall location entry, pick location = Some entry -> In entry table.

(** The router of [match_route]: the first entry whose path is the
    location as written. *)
Fixpoint pick_exact (rs : list (string * Element)) (location : string)
  : option (string * Element) :=
  match rs with
  | [] => None
  | (path, element) :: rest =>
      if String.eqb path location then Some (path, element)
      else pick_exact rest location
  end.

(** A location without its trailing slash, if it has one after other
    characters. *)
Fixpoint drop_trailing_slash (s : string) : string :=
  match s with
  | String c rest =>
      match rest with
      | EmptyString => s
      | String c' EmptyString => if is_char c' 47 then String c "" else s
      | _ => String c (drop_trailing_slash rest)
      end
  | EmptyString => s
  end.

(** A router that takes a trailing slash for the same route, as
    react-router does: [/guardian/] is the route [/guardian]. *)
Definition pick_lenient (rs : list (string * Element)) (location : string)
  : option (string * Element) :=
  pick_exact rs (drop_trailing_slash location).

(** A page of the application, as opposed to a redirect. *)
Definition is_page (e : Element) : bool :=
  match e with
  | Login | Register | GuardianHome | UserHome => true
  | Navigate _ | Private _ => false
  end.

End AppView.

Module GuardianHomePage.
Import JS.

(** ** The greeting of [GuardianHome] (guardianhome.jsx, lines 12-23) *)

Section Greeting.

Variable Number_toString : JsNumber -> string.
Variable t : string -> string.

(** [authService.getCurrentUser], from [../services/auth]. *)
Variable getCurrentUser : unit -> JsVal.

(** The text React shows for a child [{v}]: nothing for [undefined],
    [null] and booleans, the characters of a string or a number, the
    children of an array one after the other.  React refuses a plain
    object as a child and throws; [None] stands for that. *)
Fixpoint child_text (v : JsVal) : option string :=
  match v with
  | JUndefined | JNull | JBool _ => Some ""
  | JNum n => Some (Number_toString n)
  | JStr s => Some s
  | JArr elems =>
      (fix children (l : list JsVal) : option string :=
         match l with
         | [] => Some ""
         | e :: l' =>
             match child_text e, children l' with
             | Some s, Some r => Some (s ++ r)
             | _, _ => None
             end
         end) elems
  | JObj _ => None
  end.

(** [{t('dashboard.welcome')}, {user?.first_name}] *)
Definition greeting : Completion (option string) :=
  let user := getCurrentUser tt in
  bindC (GetOptional user p_first_name) (fun first_name =>
  Normal (match child_text first_name with
          | Some name => Some (t "dashboard.welcome" ++ ", " ++ name)
          | None => None
          end)).

End Greeting.

(** The value holds no object, at any depth of arrays. *)
Fixpoint object_free (v : JsVal) : bool :=
  match v with
  | JObj _ => false
  | JArr elems => forallb object_free elems
  | _ => true
  end.

End GuardianHomePage.

Module LoginForm.
Import JS LoginPage.

(** ** The form of the login page (login.jsx, lines 14-15, 60-99) *)

(** [useState({ email: '', password: '' })] *)
Definition initial_formData : FormData := {| email := ""; password := "" |}.

(** [onChange] of the two inputs:
    [setFormData({ ...formData, email: e.target.value })] and the same
    for [password]. *)
Definition onChange_email (value : string) (formData : FormData) : FormData :=
  {| email := value; password := password formData |}.

Definition onChange_password (value : string) (formData : FormData) : FormData :=
  {| email := email formData; password := value |}.

Inductive Change :=
| ChangeEmail (value : string)
| ChangePassword (value : string).

Definition onChange (c : Change) (formData : FormData) : FormData :=
  match c with
  | ChangeEmail value => onChange_email value formData
  | ChangePassword value => onChange_password value formData
  end.

(** The form after a sequence of change events, oldest first. *)
Definition typing (changes : list Change) (formData : FormData) : FormData :=
  fold_left (fun fd c => onChange c fd) changes formData.

(** The last value typed into each input, [current] when there is none. *)
Fixpoint last_email (changes : list Change) (current : string) : string :=
  match changes with
  | [] => current
  | ChangeEmail value :: rest => last_email rest value
  | ChangePassword _ :: rest => last_email rest current
  end.

Fixpoint last_password (changes : list Change) (current : string) : string :=
  match changes with
  | [] => current
  | ChangePassword value :: rest => last_password rest value
  | ChangeEmail _ :: rest => last_password rest current
  end.




Definition is_submitted (tn : Turn) : bool :=
  match tn with Submitted _ => true | Settled _ => false end.

Definition is_settled_turn (tn : Turn) : bool :=
  match tn with Settled _ => true | Submitted _ => false end.

Definition is_success_toast (e : Event) : bool :=
  match e with ToastSuccess _ => true | _ => false end.


End LoginForm.

(* ================================================================== *)
(** * Part II: properties *)
(* ================================================================== *)

Module JSFacts.
Import JS.

(** ** Every reader consumes input *)

Lemma skip_ws_length s : String.length (skip_ws s) <= String.length s.
Proof.
  induction s as [|c s IH]; simpl; [lia|].
  destruct (is_ws c); simpl; lia.
Qed.

Lemma digits_length s : forall acc count v n rest,
  digits s acc count = (v, n, rest) ->
  String.length rest <= String.length s /\
  (count < n -> String.length rest < String.length s) /\ count <= n.
Proof.
  induction s as [|c s IH]; simpl; intros acc count v n rest H.
  - inversion H; subst. simpl. lia.
  - destruct (digit_value c).
    + apply IH in H. lia.
    + inversion H; subst. simpl. lia.
Qed.

Lemma strip_prefix_length p : forall s rest,
  strip_prefix p s = Some rest ->
  String.length s = String.length p + String.length rest.
Proof.
  induction p as [|a p IH]; simpl; intros s rest H.
  - by inversion H.
  - destruct s as [|b s]; [done|].
    destruct (Ascii.eqb a b); [|done].
    apply IH in H. simpl. lia.
Qed.

Lemma parse_literal_length word v s v' rest :
  word <> "" ->
  parse_literal word v s = Consumed v' rest ->
  String.length rest < String.length s.
Proof.
  unfold parse_literal. intros Hw H.
  destruct (strip_prefix word s) eqn:E; [|done].
  inversion H; subst. apply strip_prefix_length in E.
  destruct word; [done|]. simpl in E. lia.
Qed.

Lemma exponent_digits_length sign s e rest :
  exponent_digits sign s = Some (e, rest) -> String.length rest < String.length s.
Proof.
  unfold exponent_digits. intros H.
  destruct (digits s 0%N 0) as [[v n] rest'] eqn:E.
  destruct n; [done|]. inversion H; subst.
  apply digits_length in E. lia.
Qed.

Lemma parse_exponent_length s e rest :
  parse_exponent s = Some (e, rest) -> String.length rest < String.length s.
Proof.
  destruct s as [|c r]; simpl; [done|]. intros H.
  destruct (is_char c 43); [apply exponent_digits_length in H; lia|].
  destruct (is_char c 45); [apply exponent_digits_length in H; lia|].
  apply exponent_digits_length in H. simpl in H. lia.
Qed.

Lemma parse_exponent_part_length s e rest :
  parse_exponent_part s = Some (e, rest) -> String.length rest <= String.length s.
Proof.
  destruct s as [|c r]; simpl; intros H; [inversion H; subst; simpl; lia|].
  destruct (is_char c 101 || is_char c 69).
  - apply parse_exponent_length in H. lia.
  - inversion H; subst. simpl. lia.
Qed.

Lemma parse_fraction_length int s mant places rest :
  parse_fraction int s = Some (mant, places, rest) ->
  String.length rest <= String.length s.
Proof.
  unfold parse_fraction. intros H.
  destruct s as [|c r]; [inversion H; subst; simpl; lia|].
  destruct (is_char c 46).
  - destruct (digits r int 0) as [[v n] rest'] eqn:E.
    destruct n; [done|]. inversion H; subst.
    apply digits_length in E. simpl. lia.
  - inversion H; subst. lia.
Qed.

Lemma parse_integer_length s int rest :
  parse_integer s = Some (int, rest) -> String.length rest < String.length s.
Proof.
  destruct s as [|c r]; simpl; [done|]. intros H.
  destruct (digit_value c) as [d|]; [|done].
  destruct (d =? 0)%N; [inversion H; subst; lia|].
  destruct (digits r d 1) as [[v k] r'] eqn:E.
  inversion H; subst. apply digits_length in E. lia.
Qed.

Lemma parse_unsigned_length neg s n rest :
  parse_unsigned neg s = Consumed n rest -> String.length rest < String.length s.
Proof.
  unfold parse_unsigned. intros H.
  destruct (parse_integer s) as [[int s1]|] eqn:Ei; [|done].
  destruct (parse_fraction int s1) as [[[mant places] s2]|] eqn:Ef; [|done].
  destruct (parse_exponent_part s2) as [[e s3]|] eqn:Ee; [|done].
  inversion H; subst.
  apply parse_integer_length in Ei. apply parse_fraction_length in Ef.
  apply parse_exponent_part_length in Ee. lia.
Qed.

Lemma parse_number_length s n rest :
  parse_number s = Consumed n rest -> String.length rest < String.length s.
Proof.
  destruct s as [|c r]; simpl; [done|]. intros H.
  destruct (is_char c 45); apply parse_unsigned_length in H; simpl in *; lia.
Qed.

Lemma string_chars_length : forall k s acc items rest,
  String.length s <= k ->
  string_chars s acc = Consumed items rest ->
  String.length rest < String.length s.
Proof.
  induction k as [|k IH]; intros s acc items rest Hk H.
  - destruct s; [done|simpl in Hk; lia].
  - destruct s as [|c s]; [done|]. simpl in H, Hk.
    destruct (is_char c 34); [inversion H; subst; simpl; lia|].
    destruct (is_char c 92).
    + destruct s as [|e s1]; [done|].
      destruct (is_char e 117).
      * destruct s1 as [|h1 [|h2 [|h3 [|h4 s2]]]]; try done.
        destruct (hex_unit h1 h2 h3 h4); [|done].
        apply IH in H; simpl in *; lia.
      * destruct (simple_escape e); [|done].
        apply IH in H; simpl in *; lia.
    + destruct (code c <? 32)%N; [done|].
      apply IH in H; simpl in *; lia.
Qed.

Lemma parse_elements_length pv : consuming pv ->
  forall n s acc v rest,
  parse_elements pv n s acc = Consumed v rest ->
  String.length rest < String.length s.
Proof.
  intros Hpv. induction n as [|n IH]; intros s acc v rest H; [done|].
  simpl in H. destruct (pv s) as [v1 r1| |] eqn:E; try done.
  apply Hpv in E. pose proof (skip_ws_length r1) as Hws.
  destruct (skip_ws r1) as [|c r2]; [done|]. simpl in Hws.
  destruct (is_char c 44).
  - apply IH in H. lia.
  - destruct (is_char c 93); [|done]. inversion H; subst. lia.
Qed.

Lemma parse_members_length pv : consuming pv ->
  forall n s acc v rest,
  parse_members pv n s acc = Consumed v rest ->
  String.length rest < String.length s.
Proof.
  intros Hpv. induction n as [|n IH]; intros s acc v rest H; [done|].
  simpl in H. pose proof (skip_ws_length s) as Hws.
  destruct (skip_ws s) as [|c r0]; [done|]. simpl in Hws.
  destruct (is_char c 34); [|done].
  destruct (string_chars r0 []) as [items r1| |] eqn:Es; try done.
  apply (string_chars_length _ _ _ _ _ (le_n _)) in Es.
  pose proof (skip_ws_length r1) as Hws1.
  destruct (skip_ws r1) as [|c1 r2]; [done|]. simpl in Hws1.
  destruct (is_char c1 58); [|done].
  destruct (pv r2) as [v3 r3| |] eqn:E; try done.
  apply Hpv in E. pose proof (skip_ws_length r3) as Hws3.
  destruct (skip_ws r3) as [|c3 r4]; [done|]. simpl in Hws3.
  destruct (is_char c3 44).
  - apply IH in H. lia.
  - destruct (is_char c3 125); [|done]. inversion H; subst. lia.
Qed.

Lemma parse_value_length fuel : consuming (parse_value fuel).
Proof.
  induction fuel as [|fuel IH]; intros s v rest H; [done|].
  cbn [parse_value] in H. pose proof (skip_ws_length s) as Hws.
  destruct (skip_ws s) as [|c r0]; [done|]. cbn [String.length] in Hws.
  destruct (is_char c 123).
  { pose proof (skip_ws_length r0) as Hws0.
    destruct (skip_ws r0) as [|c' r1]; [done|]. cbn [String.length] in Hws0.
    destruct (is_char c' 125); [inversion H; subst; lia|].
    apply (parse_members_length _ IH) in H. lia. }
  destruct (is_char c 91).
  { pose proof (skip_ws_length r0) as Hws0.
    destruct (skip_ws r0) as [|c' r1]; [done|]. cbn [String.length] in Hws0.
    destruct (is_char c' 93); [inversion H; subst; lia|].
    apply (parse_elements_length _ IH) in H. lia. }
  destruct (is_char c 34).
  { destruct (string_chars r0 []) as [items r1| |] eqn:Es; try done.
    apply (string_chars_length _ _ _ _ _ (le_n _)) in Es.
    inversion H; subst. lia. }
  destruct (is_char c 116);
    [apply parse_literal_length in H; [cbn [String.length] in H; lia|done]|].
  destruct (is_char c 102);
    [apply parse_literal_length in H; [cbn [String.length] in H; lia|done]|].
  destruct (is_char c 110);
    [apply parse_literal_length in H; [cbn [String.length] in H; lia|done]|].
  destruct (parse_number (String c r0)) as [n r1| |] eqn:En; try done.
  apply parse_number_length in En. inversion H; subst.
  cbn [String.length] in En. lia.
Qed.

(** ** The fuel [JSON_parse] gives is enough *)

Lemma parse_elements_fuel pv m : consuming pv ->
  (forall s, String.length s < m -> pv s <> Exhausted) ->
  forall n s acc,
  String.length s < n -> String.length s < m ->
  parse_elements pv n s acc <> Exhausted.
Proof.
  intros Hc Hpv. induction n as [|n IH]; intros s acc Hn Hm; [lia|].
  cbn [parse_elements].
  destruct (pv s) as [v1 r1| |] eqn:E; [|done|by apply Hpv in E].
  apply Hc in E. pose proof (skip_ws_length r1) as Hws.
  destruct (skip_ws r1) as [|c r2]; [done|]. cbn [String.length] in Hws.
  destruct (is_char c 44); [apply IH; lia|].
  by destruct (is_char c 93).
Qed.

Lemma parse_members_fuel pv m : consuming pv ->
  (forall s, String.length s < m -> pv s <> Exhausted) ->
  forall n s acc,
  String.length s < n -> String.length s < m ->
  parse_members pv n s acc <> Exhausted.
Proof.
  intros Hc Hpv. induction n as [|n IH]; intros s acc Hn Hm; [lia|].
  cbn [parse_members]. pose proof (skip_ws_length s) as Hws.
  destruct (skip_ws s) as [|c r0]; [done|]. cbn [String.length] in Hws.
  destruct (is_char c 34); [|done].
  destruct (string_chars r0 []) as [items r1| |] eqn:Es; try done.
  apply (string_chars_length _ _ _ _ _ (le_n _)) in Es.
  pose proof (skip_ws_length r1) as Hws1.
  destruct (skip_ws r1) as [|c1 r2]; [done|]. cbn [String.length] in Hws1.
  destruct (is_char c1 58); [|done].
  destruct (pv r2) as [v3 r3| |] eqn:E; [|done|apply Hpv in E; [done|lia]].
  apply Hc in E. pose proof (skip_ws_length r3) as Hws3.
  destruct (skip_ws r3) as [|c3 r4]; [done|]. cbn [String.length] in Hws3.
  destruct (is_char c3 44); [apply IH; lia|].
  by destruct (is_char c3 125).
Qed.

Lemma parse_value_fuel fuel : forall s,
  String.length s < fuel -> parse_value fuel s <> Exhausted.
Proof.
  induction fuel as [|fuel IH]; intros s Hlen; [lia|].
  cbn [parse_value]. pose proof (skip_ws_length s) as Hws.
  destruct (skip_ws s) as [|c r0]; [done|]. cbn [String.length] in Hws.
  destruct (is_char c 123).
  { pose proof (skip_ws_length r0) as Hws0.
    destruct (skip_ws r0) as [|c' r1]; [done|]. cbn [String.length] in Hws0.
    destruct (is_char c' 125); [done|].
    apply (parse_members_fuel _ fuel (parse_value_length fuel) IH); lia. }
  destruct (is_char c 91).
  { pose proof (skip_ws_length r0) as Hws0.
    destruct (skip_ws r0) as [|c' r1]; [done|]. cbn [String.length] in Hws0.
    destruct (is_char c' 93); [done|].
    apply (parse_elements_fuel _ fuel (parse_value_length fuel) IH); lia. }
  destruct (is_char c 34); [by destruct (string_chars r0 [])|].
  unfold parse_literal.
  destruct (is_char c 116); [by destruct (strip_prefix _ _)|].
  destruct (is_char c 102); [by destruct (strip_prefix _ _)|].
  destruct (is_char c 110); [by destruct (strip_prefix _ _)|].
  by destruct (parse_number _).
Qed.

(** [JSON.parse] throws only for a text that is not JSON: the reader
    never stops for lack of fuel. *)
Lemma JSON_parse_fuel text :
  parse_value (S (String.length text)) text <> Exhausted.
Proof. apply parse_value_fuel. lia. Qed.

Lemma JSON_parse_throws text e :
  JSON_parse text = Throw e -> e = ThrowNative SyntaxError.
Proof.
  unfold JSON_parse.
  destruct (parse_value _ _) as [v rest| |]; [|congruence..].
  destruct (skip_ws rest); congruence.
Qed.

(** ** What reads as a boolean *)

Lemma parse_elements_array pv n : forall s acc v rest,
  parse_elements pv n s acc = Consumed v rest -> exists l, v = JArr l.
Proof.
  induction n as [|n IH]; intros s acc v rest H; [done|].
  cbn [parse_elements] in H.
  destruct (pv s) as [v1 r1| |]; try done.
  destruct (skip_ws r1) as [|c r2]; [done|].
  destruct (is_char c 44); [by apply IH in H|].
  destruct (is_char c 93); [|done]. inversion H; subst. eauto.
Qed.

Lemma parse_members_object pv n : forall s acc v rest,
  parse_members pv n s acc = Consumed v rest -> exists props, v = JObj props.
Proof.
  induction n as [|n IH]; intros s acc v rest H; [done|].
  cbn [parse_members] in H.
  destruct (skip_ws s) as [|c r0]; [done|].
  destruct (is_char c 34); [|done].
  destruct (string_chars r0 []) as [items r1| |]; try done.
  destruct (skip_ws r1) as [|c1 r2]; [done|].
  destruct (is_char c1 58); [|done].
  destruct (pv r2) as [v3 r3| |]; try done.
  destruct (skip_ws r3) as [|c3 r4]; [done|].
  destruct (is_char c3 44); [by apply IH in H|].
  destruct (is_char c3 125); [|done]. inversion H; subst. eauto.
Qed.

(** A text reads as the boolean [b] exactly when it is the word [true]
    or [false] with white space around it. *)
Lemma JSON_parse_boolean text b :
  JSON_parse text = Normal (JBool b) <->
  exists tail, strip_prefix (boolean_word b) (skip_ws text) = Some tail
               /\ skip_ws tail = "".
Proof.
  unfold JSON_parse. cbn [parse_value]. split.
  - intros H.
    destruct (skip_ws text) as [|c r0] eqn:Et; [done|].
    destruct (is_char c 123).
    { destruct (skip_ws r0) as [|c' r1]; [done|].
      destruct (is_char c' 125); [by destruct (skip_ws r1)|].
      destruct (parse_members _ _ _ _) as [v rest| |] eqn:E; try done.
      apply parse_members_object in E as [props ->]. by destruct (skip_ws rest). }
    destruct (is_char c 91).
    { destruct (skip_ws r0) as [|c' r1]; [done|].
      destruct (is_char c' 93); [by destruct (skip_ws r1)|].
      destruct (parse_elements _ _ _ _) as [v rest| |] eqn:E; try done.
      apply parse_elements_array in E as [l ->]. by destruct (skip_ws rest). }
    destruct (is_char c 34).
    { destruct (string_chars r0 []) as [items r1| |]; try done.
      by destruct (skip_ws r1). }
    unfold parse_literal in H.
    destruct (is_char c 116).
    { destruct (strip_prefix "true" _) as [rest|] eqn:E; [|done].
      destruct (skip_ws rest) eqn:Er; [|done].
      inversion H; subst. simpl. eauto. }
    destruct (is_char c 102).
    { destruct (strip_prefix "false" _) as [rest|] eqn:E; [|done].
      destruct (skip_ws rest) eqn:Er; [|done].
      inversion H; subst. simpl. eauto. }
    destruct (is_char c 110).
    { destruct (strip_prefix "null" _) as [rest|]; [|done].
      by destruct (skip_ws rest). }
    destruct (parse_number _) as [n r1| |]; try done.
    by destruct (skip_ws r1).
  - intros (tail & Hp & Ht).
    destruct (skip_ws text) as [|c r0]; [by destruct b|].
    destruct b; cbn [boolean_word strip_prefix] in Hp.
    + destruct (Ascii.eqb_spec "t" c) as [<-|]; [|done].
      change (is_char "t" 123) with false. change (is_char "t" 91) with false.
      change (is_char "t" 34) with false. change (is_char "t" 116) with true.
      unfold parse_literal. cbn [strip_prefix]. rewrite Ascii.eqb_refl.
      cbn [strip_prefix] in Hp. rewrite Hp. by rewrite Ht.
    + destruct (Ascii.eqb_spec "f" c) as [<-|]; [|done].
      change (is_char "f" 123) with false. change (is_char "f" 91) with false.
      change (is_char "f" 34) with false. change (is_char "f" 116) with false.
      change (is_char "f" 102) with true.
      unfold parse_literal. cbn [strip_prefix]. rewrite Ascii.eqb_refl.
      cbn [strip_prefix] in Hp. rewrite Hp. by rewrite Ht.
Qed.

End JSFacts.

Module AppFacts.
Import JS AppShell JSFacts.

Lemma JSON_roundtrip_boolean n2s b :
  JSON_stringify n2s (JBool b) = Some (boolean_word b)
  /\ JSON_parse (boolean_word b) = Normal (JBool b).
Proof. by destruct b. Qed.

Section Theme.

Variable Number_toString : JsNumber -> string.

#[local] Abbreviation effect := (darkMode_effect Number_toString).
#[local] Abbreviation toggle := (toggleTheme Number_toString).

(** What the effect leaves under the key. *)
Lemma effect_storage d br :
  getItem "darkMode" (effect d br) =
    Some (match JSON_stringify Number_toString d with
          | Some text => text
          | None => "undefined"
          end).
Proof.
  unfold darkMode_effect, getItem, setItem, classList_add, classList_remove.
  destruct (truthy d); simpl; apply lookup_insert_eq.
Qed.

Lemma effect_storage_boolean b br :
  getItem "darkMode" (effect (JBool b) br) = Some (boolean_word b).
Proof. by rewrite effect_storage. Qed.

Lemma effect_other_keys d br k :
  k <> "darkMode" -> getItem k (effect d br) = getItem k br.
Proof.
  intros Hk. unfold darkMode_effect, getItem, setItem, classList_add, classList_remove.
  destruct (truthy d); simpl; by rewrite lookup_insert_ne.
Qed.

(** The class [dark] is on the document exactly when the flag is truthy. *)
Lemma effect_class d br :
  "dark" ∈ classList (effect d br) <-> truthy d = true.
Proof.
  unfold darkMode_effect, classList_add, classList_remove.
  destruct (truthy d); simpl; set_solver.
Qed.

(** Running the effect twice is running it once. *)
Lemma effect_idempotent d br : effect d (effect d br) = effect d br.
Proof.
  unfold darkMode_effect, setItem, classList_add, classList_remove.
  destruct (truthy d); simpl; f_equal.
  - apply insert_insert_eq.
  - set_solver.
  - apply insert_insert_eq.
  - set_solver.
Qed.

(** [!darkMode] is never [darkMode]: a click always changes the state. *)
Lemma toggle_changes d : is_boolean d (negb (truthy d)) = false.
Proof. destruct d as [| |[]| | | |]; reflexivity. Qed.

Lemma toggle_unfold st :
  toggle st = {| darkMode := JBool (negb (truthy (darkMode st)));
                 browser := effect (JBool (negb (truthy (darkMode st)))) (browser st) |}.
Proof. unfold toggleTheme. by rewrite toggle_changes. Qed.

Lemma toggle_boolean st :
  darkMode (toggle st) = JBool (negb (truthy (darkMode st)))
  /\ getItem "darkMode" (browser (toggle st))
     = Some (boolean_word (negb (truthy (darkMode st)))).
Proof. rewrite toggle_unfold. simpl. by rewrite effect_storage_boolean. Qed.

Lemma toggle_flag b st : flag_is b st -> flag_is (negb b) (toggle st).
Proof. intros [Hd _]. unfold flag_is. destruct (toggle_boolean st) as [-> ->]. by rewrite Hd. Qed.

Lemma toggles_flag n : forall b st,
  flag_is b st -> exists b', flag_is b' (toggles Number_toString n st).
Proof.
  induction n as [|n IH]; intros b st H; simpl; [eauto|].
  eapply IH, toggle_flag, H.
Qed.

Lemma toggles_succ_flag n st : exists b, flag_is b (toggles Number_toString (S n) st).
Proof.
  simpl. eapply toggles_flag. split; apply toggle_boolean.
Qed.

Lemma mount_flag br st :
  mount Number_toString br = Normal st ->
  darkMode_initializer br = Normal (darkMode st)
  /\ browser st = effect (darkMode st) br.
Proof.
  unfold mount. destruct (darkMode_initializer br) as [d|e]; simpl; [|done].
  intros [= <-]. done.
Qed.

End Theme.

(** ** The default theme *)

Lemma initializer_unset br :
  getItem "darkMode" br = None \/ getItem "darkMode" br = Some "" ->
  darkMode_initializer br = Normal (JBool true).
Proof. unfold darkMode_initializer. by intros [-> | ->]. Qed.

(** C8. When nothing is stored under the key [darkMode], or the empty
    string is, the initializer of the [darkMode] state yields [true]:
    [App] mounts in dark mode (and its effect stores [true]). *)
Theorem dark_is_the_default (Number_toString : JsNumber -> string) (br : Browser) :
  getItem "darkMode" br = None \/ getItem "darkMode" br = Some "" ->
  darkMode_initializer br = Normal (JBool true)
  /\ exists st, mount Number_toString br = Normal st /\ flag_is true st.
Proof.
  intros H. pose proof (initializer_unset br H) as Hi. split; [done|].
  unfold mount. rewrite Hi. simpl. eexists; split; [reflexivity|].
  split; [done|]. simpl. apply effect_storage_boolean.
Qed.

Lemma dark_is_the_default_fresh :
  (getItem "darkMode" fresh = None \/ getItem "darkMode" fresh = Some "")
  /\ darkMode_initializer fresh = Normal (JBool true)
  /\ exists st, mount no_numbers fresh = Normal st /\ flag_is true st.
Proof.
  assert (H : getItem "darkMode" fresh = None \/ getItem "darkMode" fresh = Some "")
    by (left; reflexivity).
  split; [exact H|]. exact (dark_is_the_default no_numbers fresh H).
Defined.

(** ** Persisting and restoring the theme *)

(** C4. For every boolean [b]: when the flag is [b] and [toggleTheme]
    sets it to [negb b], the effect stores the JSON text of [negb b]
    under the key [darkMode], and the initializer applied to the storage
    so written yields [negb b] again, so that [App] mounts after a
    reload with the toggled value. *)
Theorem toggle_persists_and_restores
    (Number_toString : JsNumber -> string) (b : bool) (br : Browser) :
  let st := toggleTheme Number_toString {| darkMode := JBool b; browser := br |} in
  darkMode st = JBool (negb b)
  /\ JSON_stringify Number_toString (darkMode st) = Some (boolean_word (negb b))
  /\ getItem "darkMode" (browser st) = Some (boolean_word (negb b))
  /\ darkMode_initializer (browser st) = Normal (JBool (negb b))
  /\ exists st', mount Number_toString (browser st) = Normal st'
                 /\ flag_is (negb b) st'.
Proof.
  intros st. subst st. rewrite toggle_unfold. cbn [darkMode browser truthy].
  assert (Hs : getItem "darkMode"
                 (darkMode_effect Number_toString (JBool (negb b)) br)
               = Some (boolean_word (negb b))) by apply effect_storage_boolean.
  assert (Hi : darkMode_initializer
                 (darkMode_effect Number_toString (JBool (negb b)) br)
               = Normal (JBool (negb b))).
  { unfold darkMode_initializer. rewrite Hs. by destruct b. }
  repeat split; try done.
  unfold mount. rewrite Hi. simpl. eexists; split; [reflexivity|].
  split; [done|]. simpl. apply effect_storage_boolean.
Qed.

(** ** The flag as a boolean *)

(** The initializer does not always yield a boolean: on a stored text
    that is not JSON it throws a SyntaxError, and on JSON that is not a
    boolean it yields that value, which the effect then writes back. *)
Lemma initializer_not_boolean :
  darkMode_initializer (stored "dark") = Throw (ThrowNative SyntaxError)
  /\ darkMode_initializer (stored "null") = Normal JNull
  /\ exists st, mount no_numbers (stored "null") = Normal st
                /\ darkMode st = JNull
                /\ getItem "darkMode" (browser st) = Some "null".
Proof.
  assert (Hi : darkMode_initializer (stored "null") = Normal JNull)
    by (by vm_compute).
  split; [by vm_compute|]. split; [exact Hi|].
  exists {| darkMode := JNull;
            browser := darkMode_effect no_numbers JNull (stored "null") |}.
  split; [unfold mount; by rewrite Hi|]. split; [reflexivity|].
  cbn [browser]. by rewrite effect_storage.
Qed.

Lemma initializer_holds_boolean br b :
  darkMode_initializer br = Normal (JBool b) <-> holds_boolean br b.
Proof.
  unfold darkMode_initializer, holds_boolean, boolean_text.
  destruct (getItem "darkMode" br) as [text|].
  - destruct text as [|c text]; cbn [truthy nonempty].
    + split.
      * intros [= <-]. by left.
      * intros [[_ ->]|(tail & H & _)]; [done|]. by destruct b.
    + rewrite JSON_parse_boolean. split; [by right|].
      by intros [[? _]|H].
  - split; [by intros [= <-]|by intros ->].
Qed.

(** C5 (amended). The initializer yields the boolean [b] exactly when
    the storage holds nothing under [darkMode] or the empty string, and
    [b] is [true], or holds the word [true] or [false] of [b] with
    white space, if any, around it.  In these cases [App] mounts with
    that flag, and from then on, after any number of toggles, the flag
    is a boolean and the text stored under the key is the JSON of that
    boolean.  For every other stored text the initializer yields no
    boolean; it is [JSON.parse] of the text whenever the text is not
    empty.  Whatever the flag was, after a toggle it is a boolean and a
    JSON boolean is stored. *)
Theorem theme_flag_boolean (Number_toString : JsNumber -> string) (br : Browser) :
  (forall b, darkMode_initializer br = Normal (JBool b) <-> holds_boolean br b)
  /\ (forall b, holds_boolean br b ->
        exists st, mount Number_toString br = Normal st
                   /\ flag_is b st
                   /\ forall n, exists b',
                        flag_is b' (toggles Number_toString n st))
  /\ ((forall b, ~ holds_boolean br b) ->
        forall b, darkMode_initializer br <> Normal (JBool b))
  /\ (forall text, getItem "darkMode" br = Some text -> text <> "" ->
        darkMode_initializer br = JSON_parse text)
  /\ (forall st n, exists b, flag_is b (toggles Number_toString (S n) st)).
Proof.
  split; [intros b; apply initializer_holds_boolean|].
  split; [|split; [|split]].
  - intros b Hb. apply initializer_holds_boolean in Hb.
    unfold mount. rewrite Hb. cbn [bindC]. eexists. split; [reflexivity|].
    assert (Hf : flag_is b
              {| darkMode := JBool b;
                 browser := darkMode_effect Number_toString (JBool b) br |}).
    { split; [done|]. apply effect_storage_boolean. }
    split; [exact Hf|]. intros n. by apply (toggles_flag _ n b).
  - intros Hno b Hb. by apply (Hno b), initializer_holds_boolean.
  - intros text Ht Hne. unfold darkMode_initializer. rewrite Ht.
    by destruct text.
  - intros st n. apply toggles_succ_flag.
Qed.

Lemma theme_flag_boolean_stored_false :
  holds_boolean (stored " false ") false
  /\ exists st, mount no_numbers (stored " false ") = Normal st
                /\ flag_is false st
                /\ forall n, exists b, flag_is b (toggles no_numbers n st).
Proof.
  assert (H : holds_boolean (stored " false ") false).
  { right. exists " ". split; reflexivity. }
  split; [exact H|].
  exact (proj1 (proj2 (theme_flag_boolean no_numbers (stored " false "))) false H).
Defined.

(** ** The route guard *)

(** C1. A guarded route renders [PrivateRoute], which is one test of
    what [isAuthenticated()] answers: on [false] it renders the
    redirect to [/login] in place of its children, on [true] the
    children themselves; so for [/guardian] and for [/user].  It has no
    other outcome. *)
Theorem PrivateRoute_guards (isAuthenticated : unit -> JsVal) (children : Element) :
  PrivateRoute isAuthenticated children
    = (if truthy (isAuthenticated tt) then children else Navigate "/login")
  /\ (isAuthenticated tt = JBool false ->
        PrivateRoute isAuthenticated children = Navigate "/login"
        /\ Routes isAuthenticated "/guardian" = Some (Navigate "/login")
        /\ Routes isAuthenticated "/user" = Some (Navigate "/login"))
  /\ (isAuthenticated tt = JBool true ->
        PrivateRoute isAuthenticated children = children
        /\ Routes isAuthenticated "/guardian" = Some GuardianHome
        /\ Routes isAuthenticated "/user" = Some UserHome).
Proof.
  assert (E : forall c, PrivateRoute isAuthenticated c
            = if truthy (isAuthenticated tt) then c else Navigate "/login")
    by reflexivity.
  split; [apply E|].
  split; intros H; unfold Routes; cbn; rewrite !E, H; auto.
Qed.

Lemma PrivateRoute_guards_both :
  (Routes (fun _ => JBool false) "/guardian" = Some (Navigate "/login")
   /\ Routes (fun _ => JBool false) "/user" = Some (Navigate "/login"))
  /\ (Routes (fun _ => JBool true) "/guardian" = Some GuardianHome
      /\ Routes (fun _ => JBool true) "/user" = Some UserHome).
Proof.
  split.
  - exact (proj2 (proj1 (proj2 (PrivateRoute_guards (fun _ => JBool false) Login))
                    eq_refl)).
  - exact (proj2 (proj2 (proj2 (PrivateRoute_guards (fun _ => JBool true) Login))
                    eq_refl)).
Defined.

(** C6. The root route [/] renders the redirect to [/login], whatever
    [isAuthenticated()] answers. *)
Theorem root_redirects_to_login (isAuthenticated : unit -> JsVal) :
  Routes isAuthenticated "/" = Some (Navigate "/login").
Proof. reflexivity. Qed.

End AppFacts.

Module LoginFacts.
Import JS LoginPage.

(** Unfolds the handler down to the page states it goes through. *)
Ltac run_handler :=
  unfold submit, handleSubmit, try_finally, try_catch, try_block, catch_block,
    await_login, setLoading, emit, lift, ret, bind, idle;
  cbn [loading trace fst snd app].

(** A read throws exactly on [undefined] and [null]. *)
Lemma Get_nullish v p :
  nullish v = true -> Get v p = Throw (ThrowNative TypeError).
Proof. by destruct v. Qed.

Lemma Get_defined v p :
  nullish v = false -> exists x, Get v p = Normal x.
Proof. destruct v; try done; by eexists. Qed.

Lemma Get_normal v p x : Get v p = Normal x -> nullish v = false.
Proof. by destruct v. Qed.

Lemma GetOptional_normal v p : exists x, GetOptional v p = Normal x.
Proof.
  unfold GetOptional. destruct (nullish v) eqn:E; [by eexists|].
  by apply Get_defined.
Qed.

Lemma error_detail_normal reason :
  reason <> ThrowValue JUndefined -> reason <> ThrowValue JNull ->
  exists detail, error_detail reason = Normal detail.
Proof.
  intros H1 H2. destruct reason as [v|k]; [|by eexists].
  unfold error_detail.
  destruct (Get_defined v p_response) as [response ->]; [by destruct v|].
  cbn [bindC]. destruct (nullish response) eqn:E; [by eexists|].
  destruct (Get_defined response p_data E) as [data ->]. cbn [bindC].
  apply GetOptional_normal.
Qed.

Lemma error_detail_throws reason e :
  error_detail reason = Throw e ->
  (reason = ThrowValue JUndefined \/ reason = ThrowValue JNull)
  /\ e = ThrowNative TypeError.
Proof.
  intros H.
  destruct reason as [v|k]; [|done].
  destruct v; try (cbn in H; injection H as <-; by auto);
    edestruct error_detail_normal as [d Hd]; try (rewrite Hd in H; done); done.
Qed.

(** [ToString] throws nothing but a TypeError. *)
Lemma ToString_throws n2s : forall v e,
  ToString n2s v = Throw e -> e = ThrowNative TypeError.
Proof.
  fix IH 1. intros v e. destruct v as [| |b|n|s|elems|props]; cbn [ToString].
  1-5: discriminate.
  - match goal with |- ?join elems true = _ -> _ =>
      enough (Hall : forall first,
                join elems first = Throw e -> e = ThrowNative TypeError)
        by exact (Hall true)
    end.
    induction elems as [|x elems IHl]; intros first; [discriminate|].
    specialize (IHl false).
    destruct (nullish x); cbn [bindC].
    + match type of IHl with ?j = _ -> _ => destruct j as [r|e'] end;
        cbn [bindC]; [discriminate|].
      intros [= <-]. by apply IHl.
    + destruct (ToString n2s x) as [sx|e'] eqn:Ex; cbn [bindC].
      * match type of IHl with ?j = _ -> _ => destruct j as [r|e''] end;
          cbn [bindC]; [discriminate|].
        intros [= <-]. by apply IHl.
      * intros [= <-]. by eapply IH.
  - destruct (has_own "toString" props); [by intros [= <-]|discriminate].
Qed.

(** Reading a property throws nothing but a TypeError. *)
Lemma Get_throws v p e : Get v p = Throw e -> e = ThrowNative TypeError.
Proof. destruct v; cbn; congruence. Qed.

Section Handler.

Variable Number_toString : JsNumber -> string.
Variable t : string -> string.
Variable login : FormData -> Completion JsVal.
Variable isGuardian : unit -> JsVal.

#[local] Abbreviation handle := (handleSubmit Number_toString t login isGuardian).
#[local] Abbreviation submission := (submit Number_toString t login isGuardian).
#[local] Abbreviation after := (after_settled Number_toString t isGuardian).

(** The handler, as the list of its effects. *)
Lemma handleSubmit_run formData st :
  handle formData st =
    ({| loading := false;
        trace := trace st
                 ++ [PreventDefault; SetLoading true; LoginCalled formData;
                     settled (login formData)]
                 ++ fst (after (login formData))
                 ++ [SetLoading false] |},
     snd (after (login formData))).
Proof.
  run_handler. unfold after_settled, welcome, error_toast, role_route, settled.
  destruct (login formData) as [response|reason]; cbn [loading trace fst snd].
  - destruct (Get response p_user) as [user|e]; cbn [bindC loading trace fst snd].
    + destruct (Get user p_first_name) as [first_name|e]; cbn [bindC loading trace fst snd].
      * destruct (ToString Number_toString first_name) as [name|e];
          cbn [bindC loading trace fst snd].
        -- destruct (truthy (isGuardian tt)); cbn [bindC loading trace fst snd];
             by rewrite <- !app_assoc.
        -- destruct (error_detail e); cbn [bindC loading trace fst snd];
             by rewrite <- !app_assoc.
      * destruct (error_detail e); cbn [bindC loading trace fst snd];
          by rewrite <- !app_assoc.
    + destruct (error_detail e); cbn [bindC loading trace fst snd];
        by rewrite <- !app_assoc.
  - destruct (error_detail reason); cbn [bindC loading trace fst snd];
      by rewrite <- !app_assoc.
Qed.

(** The effects of a submission do not depend on the page it starts
    from. *)
Lemma handleSubmit_frame formData st :
  handle formData st =
    ({| loading := false;
        trace := trace st ++ trace (fst (submission formData)) |},
     snd (submission formData)).
Proof. unfold submit. by rewrite !handleSubmit_run. Qed.

Lemma submit_run formData :
  submission formData =
    ({| loading := false;
        trace := [PreventDefault; SetLoading true; LoginCalled formData;
                  settled (login formData)]
                 ++ fst (after (login formData))
                 ++ [SetLoading false] |},
     snd (after (login formData))).
Proof. unfold submit. by rewrite handleSubmit_run. Qed.

Lemma is_settled_settled outcome : is_settled (settled outcome) = true.
Proof. by destruct outcome. Qed.

Lemma error_toast_events error :
  count is_settled (error_toast error) = 0
  /\ count is_request (error_toast error) = 0
  /\ count is_navigation (error_toast error) = 0
  /\ count is_error_toast (error_toast error) <= 1.
Proof. unfold error_toast. destruct (error_detail error); cbn; lia. Qed.

(** After the request: a welcome toast and one navigation, or at most
    one error toast. *)
Lemma after_settled_events outcome :
  let events := fst (after outcome) in
  count is_settled events = 0
  /\ count is_request events = 0
  /\ count is_navigation events + count is_error_toast events <= 1.
Proof.
  unfold after_settled.
  destruct outcome as [response|reason]; [destruct (welcome _ _ response)|];
    cbn [fst]; try (cbn; lia);
    match goal with |- context [error_toast ?e] =>
      pose proof (error_toast_events e) end; lia.
Qed.

(** ** The claims about [handleSubmit] *)

(** C2 (amended). For every submission whose login call resolves with
    a response that carries a user (reading [response.user] gives
    neither [undefined] nor [null]) whose [first_name] prints as a
    string: the handler shows the welcome toast and then navigates, to
    [/guardian] when [isGuardian()] is truthy and to [/user] otherwise;
    these are its only toast and its only navigation. *)
Theorem resolved_with_user_navigates formData response user first_name name :
  login formData = Normal response ->
  Get response p_user = Normal user ->
  Get user p_first_name = Normal first_name ->
  ToString Number_toString first_name = Normal name ->
  submit Number_toString t login isGuardian formData =
    ({| loading := false;
        trace := [PreventDefault; SetLoading true; LoginCalled formData;
                  LoginResolved response;
                  ToastSuccess (t "auth.welcomeBack" ++ ", " ++ name ++ "!");
                  NavigateTo (if truthy (isGuardian tt) then "/guardian" else "/user");
                  SetLoading false] |},
     Normal tt).
Proof.
  intros Hl Hu Hf Hn. rewrite submit_run, Hl.
  unfold after_settled, welcome.
  rewrite Hu; cbn [bindC]. rewrite Hf; cbn [bindC]. by rewrite Hn.
Qed.

(** C3 (amended). For every submission whose login call rejects with
    a reason other than [undefined] and [null]: the handler shows
    exactly one notification, an error whose text is
    [error.response?.data?.detail] when that is truthy and
    ['Login failed'] otherwise; it does not navigate, and it has issued
    the request exactly once. *)
Theorem rejected_shows_one_error formData reason :
  login formData = Throw reason ->
  reason <> ThrowValue JUndefined ->
  reason <> ThrowValue JNull ->
  exists detail,
    error_detail reason = Normal detail
    /\ submit Number_toString t login isGuardian formData =
         ({| loading := false;
             trace := [PreventDefault; SetLoading true; LoginCalled formData;
                       LoginRejected reason;
                       ToastError (if truthy detail then detail
                                   else JStr "Login failed");
                       SetLoading false] |},
          Normal tt)
    /\ let events :=
         trace (fst (submit Number_toString t login isGuardian formData)) in
       count is_error_toast events = 1
       /\ count is_toast events = 1
       /\ count is_navigation events = 0
       /\ count is_request events = 1.
Proof.
  intros Hl H1 H2. destruct (error_detail_normal reason H1 H2) as [detail Hd].
  exists detail. split; [done|].
  assert (Hrun : submission formData =
         ({| loading := false;
             trace := [PreventDefault; SetLoading true; LoginCalled formData;
                       LoginRejected reason;
                       ToastError (if truthy detail then detail
                                   else JStr "Login failed");
                       SetLoading false] |},
          Normal tt)).
  { rewrite submit_run, Hl. unfold after_settled, error_toast. by rewrite Hd. }
  rewrite Hrun. by cbn.
Qed.

(** The success branch throws nothing but a TypeError. *)
Lemma welcome_throws response e :
  welcome Number_toString t response = Throw e -> e = ThrowNative TypeError.
Proof.
  unfold welcome.
  destruct (Get response p_user) as [user|e1] eqn:Hu; cbn [bindC];
    [|intros [= <-]; by eapply Get_throws].
  destruct (Get user p_first_name) as [fn|e2] eqn:Hf; cbn [bindC];
    [|intros [= <-]; by eapply Get_throws].
  destruct (ToString Number_toString fn) as [name|e3] eqn:Hn; cbn [bindC];
    [done|intros [= <-]; by eapply ToString_throws].
Qed.

(** After the request the handler navigates or shows one error, unless
    the reason of a rejection is [undefined] or [null]: then the
    [catch] block throws and nothing is shown. *)
Lemma after_settled_one outcome :
  let events := fst (after outcome) in
  (outcome <> Throw (ThrowValue JUndefined) ->
   outcome <> Throw (ThrowValue JNull) ->
   count is_navigation events + count is_error_toast events = 1)
  /\ (outcome = Throw (ThrowValue JUndefined)
      \/ outcome = Throw (ThrowValue JNull) ->
      events = []).
Proof.
  cbn zeta. unfold after_settled. split.
  - intros H1 H2. destruct outcome as [response|reason].
    + destruct (welcome _ _ response) as [message|e] eqn:E; [done|].
      by apply welcome_throws in E as ->.
    + cbn [fst]. unfold error_toast.
      destruct (error_detail_normal reason) as [detail ->]; [congruence..|done].
  - by intros [-> | ->].
Qed.

(** C7 (amended). Within one submission the handler first calls
    [e.preventDefault()] and [setLoading(true)] and issues the request;
    these three are all that precedes the settling of the request, so
    no notification and no navigation does.  After it the request is
    neither issued nor settled again, and the handler navigates or
    shows an error notification: never both, and exactly one of the
    two unless the login call rejects with [undefined] or [null], when
    it neither navigates nor shows any notification. *)
Theorem effects_follow_the_request formData :
  let events :=
    trace (fst (submit Number_toString t login isGuardian formData)) in
  exists done later,
    events = ([PreventDefault; SetLoading true; LoginCalled formData; done]
              ++ later)%list
    /\ is_settled done = true
    /\ before_settled events
       = [PreventDefault; SetLoading true; LoginCalled formData]
    /\ count is_settled later = 0
    /\ count is_request later = 0
    /\ count is_navigation later + count is_error_toast later <= 1
    /\ (login formData <> Throw (ThrowValue JUndefined) ->
        login formData <> Throw (ThrowValue JNull) ->
        count is_navigation later + count is_error_toast later = 1)
    /\ (login formData = Throw (ThrowValue JUndefined)
        \/ login formData = Throw (ThrowValue JNull) ->
        count is_navigation later = 0 /\ count is_toast later = 0).
Proof.
  intros events. subst events.
  exists (settled (login formData)),
    (fst (after (login formData)) ++ [SetLoading false])%list.
  rewrite submit_run. cbn [fst trace].
  pose proof (after_settled_events (login formData)) as (Hs & Hr & Hn).
  pose proof (after_settled_one (login formData)) as (Hone & Hnone).
  cbn zeta in Hone, Hnone.
  split; [done|]. split; [apply is_settled_settled|].
  split; [by destruct (login formData)|].
  unfold count in *. rewrite !List.filter_app, !length_app. cbn [List.filter
    is_settled is_request is_navigation is_error_toast is_toast length].
  repeat split; try lia.
  - intros H1 H2. specialize (Hone H1 H2). lia.
  - apply Hnone in H. by rewrite H.
  - apply Hnone in H. by rewrite H.
Qed.

(** C9. After every submission, from any page state and whatever the
    login call does (it resolves, it rejects, or the success branch or
    the [catch] block throws), the [loading] flag is [false], and
    [setLoading(false)] is the last thing the handler did: the submit
    button is enabled again. *)
Theorem loading_is_reset formData st :
  let st' := fst (handleSubmit Number_toString t login isGuardian formData st) in
  loading st' = false
  /\ button_disabled st' = false
  /\ last (trace st') = Some (SetLoading false).
Proof.
  intros st'. subst st'. rewrite handleSubmit_run.
  unfold button_disabled. cbn [fst loading trace]. repeat split.
  by rewrite !app_assoc, last_snoc.
Qed.

(** C10 (amended). For every response without a user, the [try] block
    throws a TypeError after the request has resolved; the handler then
    shows the error notification ['Login failed'] and does not
    navigate.  A submission navigates only when the login call resolved
    with a response whose user is neither [undefined] nor [null]; the
    user need not be an object. *)
Theorem missing_user_fails_the_login formData :
  (forall response,
     login formData = Normal response -> user_absent response ->
     (forall st, snd (try_block Number_toString t login isGuardian formData st)
                 = Throw (ThrowNative TypeError))
     /\ submit Number_toString t login isGuardian formData =
          ({| loading := false;
              trace := [PreventDefault; SetLoading true; LoginCalled formData;
                        LoginResolved response;
                        ToastError (JStr "Login failed");
                        SetLoading false] |},
           Normal tt))
  /\ (0 < count is_navigation
             (trace (fst (submit Number_toString t login isGuardian formData))) ->
      exists response user,
        login formData = Normal response
        /\ Get response p_user = Normal user
        /\ nullish user = false).
Proof.
  split.
  - intros response Hl Ha.
    assert (Hw : welcome Number_toString t response = Throw (ThrowNative TypeError)).
    { unfold welcome, user_absent in *.
      destruct (Get response p_user) as [user|e] eqn:Hu.
      - cbn [bindC]. by rewrite (Get_nullish _ _ Ha).
      - destruct response; by inversion Hu. }
    split.
    + intros st. run_handler. rewrite Hl. cbn [fst snd trace loading].
      unfold welcome in Hw.
      destruct (Get response p_user) as [user|e];
        cbn [bindC snd] in Hw |- *; [|congruence].
      destruct (Get user p_first_name) as [fn|e];
        cbn [bindC snd] in Hw |- *; [|congruence].
      destruct (ToString Number_toString fn) as [name|e];
        cbn [bindC snd] in Hw |- *; congruence.
    + rewrite submit_run, Hl. unfold after_settled. by rewrite Hw.
  - rewrite submit_run. cbn [fst trace]. unfold after_settled, welcome.
    destruct (login formData) as [response|reason].
    + destruct (Get response p_user) as [user|e] eqn:Hu.
      * cbn [bindC]. destruct (Get user p_first_name) as [fn|e] eqn:Hf.
        -- intros _. exists response, user. repeat split; try done.
           by apply Get_normal in Hf.
        -- cbn [bindC]. unfold error_toast.
           destruct (error_detail e); cbn; lia.
      * cbn [bindC]. unfold error_toast. destruct (error_detail e); cbn; lia.
    + unfold error_toast. destruct (error_detail reason); cbn; lia.
Qed.

End Handler.

(** ** The claims on sample submissions *)

Lemma resolved_with_user_navigates_sample :
  submit no_numbers untranslated (fun _ => Normal answer_with_user)
    (fun _ => JBool true) sample_form =
    ({| loading := false;
        trace := [PreventDefault; SetLoading true; LoginCalled sample_form;
                  LoginResolved answer_with_user;
                  ToastSuccess "auth.welcomeBack, Asha!";
                  NavigateTo "/guardian";
                  SetLoading false] |},
     Normal tt).
Proof.
  exact (resolved_with_user_navigates no_numbers untranslated
           (fun _ => Normal answer_with_user) (fun _ => JBool true) sample_form
           answer_with_user (JObj [("first_name", JStr "Asha")]) (JStr "Asha") "Asha"
           eq_refl eq_refl eq_refl eq_refl).
Defined.

(** A login that resolves without a user ends in the error
    notification and no navigation. *)
Lemma resolved_without_user_stays :
  submit no_numbers untranslated (fun _ => Normal answer_without_user)
    (fun _ => JBool true) sample_form =
    ({| loading := false;
        trace := [PreventDefault; SetLoading true; LoginCalled sample_form;
                  LoginResolved answer_without_user;
                  ToastError (JStr "Login failed");
                  SetLoading false] |},
     Normal tt).
Proof. reflexivity. Qed.

Lemma rejected_shows_one_error_sample :
  submit no_numbers untranslated (fun _ => Throw (ThrowValue refused))
    (fun _ => JBool false) sample_form =
    ({| loading := false;
        trace := [PreventDefault; SetLoading true; LoginCalled sample_form;
                  LoginRejected (ThrowValue refused);
                  ToastError (JStr "Invalid credentials");
                  SetLoading false] |},
     Normal tt).
Proof.
  destruct (rejected_shows_one_error no_numbers untranslated
              (fun _ => Throw (ThrowValue refused)) (fun _ => JBool false)
              sample_form (ThrowValue refused) eq_refl)
    as (detail & Hd & Hrun & _); [discriminate..|].
  injection Hd as <-. exact Hrun.
Defined.

(** A login that rejects with [undefined] shows no notification: the
    [catch] block itself throws. *)
Lemma rejected_with_undefined_is_silent :
  submit no_numbers untranslated (fun _ => Throw (ThrowValue JUndefined))
    (fun _ => JBool false) sample_form =
    ({| loading := false;
        trace := [PreventDefault; SetLoading true; LoginCalled sample_form;
                  LoginRejected (ThrowValue JUndefined);
                  SetLoading false] |},
     Throw (ThrowNative TypeError)).
Proof. reflexivity. Qed.

(** Two effects, and the call itself, come before the request settles. *)
Lemma effects_before_the_request :
  before_settled
    (trace (fst (submit no_numbers untranslated (fun _ => Normal answer_with_user)
                   (fun _ => JBool true) sample_form)))
  = [PreventDefault; SetLoading true; LoginCalled sample_form].
Proof. reflexivity. Qed.

(** The rule of C7 on a refused login: one error notification, no
    navigation. *)
Lemma effects_follow_the_request_sample :
  exists done later,
    trace (fst (submit no_numbers untranslated
                  (fun _ => Throw (ThrowValue refused)) (fun _ => JBool false)
                  sample_form))
    = ([PreventDefault; SetLoading true; LoginCalled sample_form; done]
       ++ later)%list
    /\ is_settled done = true
    /\ count is_settled later = 0
    /\ count is_request later = 0
    /\ count is_navigation later + count is_error_toast later = 1.
Proof.
  destruct (effects_follow_the_request no_numbers untranslated
              (fun _ => Throw (ThrowValue refused)) (fun _ => JBool false)
              sample_form)
    as (done & later & Hrun & Hdone & _ & Hs & Hr & _ & Hone & _).
  exists done, later.
  split; [exact Hrun|]. split; [exact Hdone|].
  split; [exact Hs|]. split; [exact Hr|].
  apply Hone; discriminate.
Defined.

(** A login that resolves with a user that is a string, not an object:
    the first name reads as [undefined], and the handler shows the
    welcome toast and navigates. *)
Lemma string_user_navigates :
  Get (JObj [("user", JStr "Asha")]) p_user = Normal (JStr "Asha")
  /\ submit no_numbers untranslated
       (fun _ => Normal (JObj [("user", JStr "Asha")]))
       (fun _ => JBool true) sample_form =
       ({| loading := false;
           trace := [PreventDefault; SetLoading true; LoginCalled sample_form;
                     LoginResolved (JObj [("user", JStr "Asha")]);
                     ToastSuccess "auth.welcomeBack, undefined!";
                     NavigateTo "/guardian";
                     SetLoading false] |},
        Normal tt).
Proof. split; reflexivity. Qed.

Lemma missing_user_fails_the_login_sample :
  user_absent answer_without_user
  /\ (forall st,
        snd (try_block no_numbers untranslated (fun _ => Normal answer_without_user)
               (fun _ => JBool true) sample_form st)
        = Throw (ThrowNative TypeError))
  /\ submit no_numbers untranslated (fun _ => Normal answer_without_user)
       (fun _ => JBool true) sample_form =
       ({| loading := false;
           trace := [PreventDefault; SetLoading true; LoginCalled sample_form;
                     LoginResolved answer_without_user;
                     ToastError (JStr "Login failed");
                     SetLoading false] |},
        Normal tt).
Proof.
  assert (H : user_absent answer_without_user) by reflexivity.
  split; [exact H|].
  exact (proj1 (missing_user_fails_the_login no_numbers untranslated
                  (fun _ => Normal answer_without_user) (fun _ => JBool true)
                  sample_form)
           answer_without_user eq_refl H).
Defined.

End LoginFacts.

Module ThemeFacts.
Import JS AppShell AppView JSFacts AppFacts.

(** ** What [JSON.parse] never returns *)

Lemma parse_literal_value word v s v' rest :
  parse_literal word v s = Consumed v' rest -> v' = v.
Proof.
  unfold parse_literal. destruct (strip_prefix word s); [|done]. by intros [= <- _].
Qed.

Lemma parse_value_defined fuel s v rest :
  parse_value fuel s = Consumed v rest -> v <> JUndefined.
Proof.
  destruct fuel as [|fuel]; [done|]. cbn [parse_value]. intros H.
  destruct (skip_ws s) as [|c r0]; [done|].
  destruct (is_char c 123).
  { destruct (skip_ws r0) as [|c' r1]; [done|].
    destruct (is_char c' 125); [by inversion H|].
    by apply parse_members_object in H as [props ->]. }
  destruct (is_char c 91).
  { destruct (skip_ws r0) as [|c' r1]; [done|].
    destruct (is_char c' 93); [by inversion H|].
    by apply parse_elements_array in H as [l ->]. }
  destruct (is_char c 34).
  { destruct (string_chars r0 []) as [items r1| |]; try done. by inversion H. }
  destruct (is_char c 116); [by apply parse_literal_value in H as ->|].
  destruct (is_char c 102); [by apply parse_literal_value in H as ->|].
  destruct (is_char c 110); [by apply parse_literal_value in H as ->|].
  destruct (parse_number _) as [n r1| |]; try done. by inversion H.
Qed.

Lemma JSON_parse_defined text v : JSON_parse text = Normal v -> v <> JUndefined.
Proof.
  unfold JSON_parse.
  destruct (parse_value _ text) as [v' rest| |] eqn:E; try done.
  destruct (skip_ws rest); [|done]. intros [= <-].
  by eapply parse_value_defined.
Qed.

Lemma JSON_stringify_defined n2s v :
  v <> JUndefined -> exists text, JSON_stringify n2s v = Some text.
Proof. destruct v; try done; intros _; by eexists. Qed.

Lemma initializer_defined br d :
  darkMode_initializer br = Normal d -> d <> JUndefined.
Proof.
  unfold darkMode_initializer.
  destruct (getItem "darkMode" br) as [text|]; [|by intros [= <-]].
  destruct (truthy (JStr text)); [apply JSON_parse_defined|by intros [= <-]].
Qed.

Section Theme.

Variable Number_toString : JsNumber -> string.

#[local] Abbreviation effect := (darkMode_effect Number_toString).
#[local] Abbreviation toggle := (toggleTheme Number_toString).
#[local] Abbreviation reachable := (Reachable Number_toString).

Lemma reachable_in_sync st : reachable st -> in_sync Number_toString st.
Proof.
  induction 1 as [br st Hm|st _ [Hd [br Hb]]].
  - apply mount_flag in Hm as [Hi Hb]. split; [by eapply initializer_defined|eauto].
  - rewrite toggle_unfold. split; [done|]. simpl. eauto.
Qed.

(** X1. In every state [App] reaches by mounting and toggling, the
    text stored under [darkMode] is the JSON of the current flag, and
    the four places that show the theme agree with the truth value of
    the flag: the class [dark] of the document, the class of the
    wrapper, the theme of the toasts and the icon of the button. *)
Theorem theme_in_sync st :
  reachable st ->
  (exists text, JSON_stringify Number_toString (darkMode st) = Some text
                /\ getItem "darkMode" (browser st) = Some text)
  /\ ("dark" ∈ classList (browser st) <-> truthy (darkMode st) = true)
  /\ (wrapper_className (darkMode st) = "dark" <-> truthy (darkMode st) = true)
  /\ (toast_theme (darkMode st) = "dark" <-> truthy (darkMode st) = true)
  /\ (theme_icon (darkMode st) = FiSun <-> truthy (darkMode st) = true).
Proof.
  intros H. apply reachable_in_sync in H as [Hd [br Hb]].
  split.
  - destruct (JSON_stringify_defined Number_toString _ Hd) as [text Ht].
    exists text. split; [done|]. by rewrite Hb, effect_storage, Ht.
  - split; [rewrite Hb; apply effect_class|].
    unfold wrapper_className, toast_theme, theme_icon.
    destruct (truthy (darkMode st)); repeat split; done.
Qed.

Lemma effect_thrice b br :
  effect (JBool b) (effect (JBool (negb b)) (effect (JBool b) br))
  = effect (JBool b) br.
Proof.
  unfold darkMode_effect, setItem, classList_add, classList_remove.
  destruct b; simpl; f_equal.
  - by rewrite !insert_insert_eq.
  - apply set_eq. intros x.
    rewrite !elem_of_union, elem_of_difference, elem_of_union, !elem_of_singleton.
    destruct (decide (x = "dark")); tauto.
  - by rewrite !insert_insert_eq.
  - apply set_eq. intros x.
    rewrite !elem_of_difference, elem_of_union, elem_of_difference,
      !elem_of_singleton.
    destruct (decide (x = "dark")); tauto.
Qed.

(** X2. When the flag of a reachable state is a boolean, a click on
    the theme button flips it (the icon changes), and a second click
    gives back the very state before the first: flag, storage and
    class list. *)
Theorem toggle_twice st b :
  reachable st -> darkMode st = JBool b ->
  truthy (darkMode (toggle st)) = negb b
  /\ theme_icon (darkMode (toggle st)) <> theme_icon (darkMode st)
  /\ toggle (toggle st) = st.
Proof.
  intros H Hb. apply reachable_in_sync in H as [_ [br Hbr]].
  rewrite !toggle_unfold. cbn [darkMode browser truthy].
  rewrite Hb. cbn [truthy]. split; [done|].
  split; [unfold theme_icon; by destruct b|].
  rewrite negb_involutive. destruct st as [d brs]. cbn [darkMode browser] in *.
  subst d brs. f_equal. apply effect_thrice.
Qed.

Lemma toggle_other_keys st k :
  k <> "darkMode" -> getItem k (browser (toggle st)) = getItem k (browser st).
Proof. intros Hk. rewrite toggle_unfold. by apply effect_other_keys. Qed.

Lemma effect_other_classes d br c :
  c <> "dark" -> c ∈ classList (effect d br) <-> c ∈ classList br.
Proof.
  unfold darkMode_effect, classList_add, classList_remove.
  generalize "dark". intros dark Hc.
  destruct (truthy d); simpl; set_solver.
Qed.

(** X3. Mounting [App] and toggling the theme any number of times
    leaves every storage key other than [darkMode] and every class of
    the document other than [dark] as the browser had them. *)
Theorem theme_touches_only_its_own br st n k c :
  mount Number_toString br = Normal st ->
  k <> "darkMode" -> c <> "dark" ->
  getItem k (browser (toggles Number_toString n st)) = getItem k br
  /\ (c ∈ classList (browser (toggles Number_toString n st)) <-> c ∈ classList br).
Proof.
  intros Hm Hk Hc. apply mount_flag in Hm as [_ Hb].
  assert (H0 : getItem k (browser st) = getItem k br
               /\ (c ∈ classList (browser st) <-> c ∈ classList br)).
  { rewrite Hb. split; [by apply effect_other_keys|by apply effect_other_classes]. }
  clear Hb. revert st H0. induction n as [|n IH]; intros st H0; [done|].
  cbn [toggles]. apply IH. rewrite toggle_unfold. cbn [browser].
  rewrite effect_other_keys, effect_other_classes by done. exact H0.
Qed.

(** X4. Running the effect of [darkMode] again for the same flag
    changes nothing: any number of runs in a row leaves the browser as
    one run does, as when [React.StrictMode] runs effects twice. *)
Theorem effect_rerun n d br :
  rerun Number_toString (S n) d br = effect d br.
Proof.
  revert br. induction n as [|n IH]; intros br; [done|].
  change (rerun Number_toString (S (S n)) d br)
    with (rerun Number_toString (S n) d (effect d br)).
  by rewrite IH, effect_idempotent.
Qed.

(** X5. Reloading in a reachable state whose flag is the boolean [b]
    (same storage, the class list of a new document) mounts [App] with
    the flag [b] again, leaves the storage exactly as it was, and puts
    the class [dark] on the new document exactly when [b] is true. *)
Theorem reload_restores st b document_classes :
  reachable st -> darkMode st = JBool b ->
  exists st',
    mount Number_toString (reload document_classes (browser st)) = Normal st'
    /\ darkMode st' = JBool b
    /\ localStorage (browser st') = localStorage (browser st)
    /\ ("dark" ∈ classList (browser st') <-> b = true).
Proof.
  intros H Hb. apply reachable_in_sync in H as [_ [br Hbr]].
  assert (Hs : getItem "darkMode" (browser st) = Some (boolean_word b))
    by (by rewrite Hbr, Hb, effect_storage_boolean).
  assert (Hi : darkMode_initializer (reload document_classes (browser st))
               = Normal (JBool b)).
  { unfold darkMode_initializer.
    change (getItem "darkMode" (reload document_classes (browser st)))
      with (getItem "darkMode" (browser st)).
    rewrite Hs. by destruct b. }
  unfold mount. rewrite Hi. cbn [bindC]. eexists. split; [reflexivity|].
  cbn [darkMode browser]. split; [done|]. split.
  - unfold darkMode_effect, setItem, classList_add, classList_remove.
    destruct b; cbn [truthy localStorage reload JSON_stringify];
      by apply insert_id.
  - rewrite effect_class. by destruct b.
Qed.

(** X6. A stored theme that JSON cannot read fails the mount of
    [App]: the initializer throws the SyntaxError of [JSON.parse]
    before any effect runs.  White space alone is such a text, although
    the empty string is taken as no preference, and so is every text
    whose first character after white space cannot start a JSON value,
    a word other than [true], [false] and [null] among them. *)
Theorem unreadable_theme_fails_the_mount br text :
  getItem "darkMode" br = Some text ->
  text <> "" ->
  (skip_ws text = ""
   \/ exists c rest, skip_ws text = String c rest /\ starts_value c = false) ->
  JSON_parse text = Throw (ThrowNative SyntaxError)
  /\ darkMode_initializer br = Throw (ThrowNative SyntaxError)
  /\ mount Number_toString br = Throw (ThrowNative SyntaxError).
Proof.
  intros Hg Hne Hbad.
  assert (Hp : JSON_parse text = Throw (ThrowNative SyntaxError)).
  { unfold JSON_parse. cbn [parse_value].
    destruct Hbad as [-> | (c & rest & -> & Hc)]; [done|].
    unfold starts_value in Hc.
    repeat (apply orb_false_elim in Hc as [Hc ?]).
    unfold parse_number, parse_unsigned, parse_integer.
    repeat match goal with H : is_char c _ = false |- _ => rewrite H; clear H end.
    by destruct (digit_value c) in *. }
  assert (Hi : darkMode_initializer br = Throw (ThrowNative SyntaxError)).
  { unfold darkMode_initializer. rewrite Hg.
    by destruct text as [|c0 text0]. }
  split; [done|]. split; [done|]. unfold mount. by rewrite Hi.
Qed.

End Theme.

Lemma theme_in_sync_fresh :
  exists st, mount no_numbers fresh = Normal st
    /\ getItem "darkMode" (browser st) = Some "true"
    /\ "dark" ∈ classList (browser st)
    /\ wrapper_className (darkMode st) = "dark"
    /\ toast_theme (darkMode st) = "dark"
    /\ theme_icon (darkMode st) = FiSun.
Proof.
  pose (st := {| darkMode := JBool true;
                 browser := darkMode_effect no_numbers (JBool true) fresh |}).
  assert (Hm : mount no_numbers fresh = Normal st) by reflexivity.
  destruct (theme_in_sync no_numbers st (reach_mount _ _ _ Hm))
    as ((text & Ht & Hs) & Hc & _).
  exists st. split; [exact Hm|].
  split; [injection Ht as <-; exact Hs|].
  split; [apply Hc; reflexivity|]. by repeat split.
Defined.

Lemma toggle_twice_fresh :
  exists st, mount no_numbers fresh = Normal st
    /\ toggleTheme no_numbers (toggleTheme no_numbers st) = st.
Proof.
  pose (st := {| darkMode := JBool true;
                 browser := darkMode_effect no_numbers (JBool true) fresh |}).
  assert (Hm : mount no_numbers fresh = Normal st) by reflexivity.
  exists st. split; [exact Hm|].
  exact (proj2 (proj2 (toggle_twice no_numbers st true
                         (reach_mount _ _ _ Hm) eq_refl))).
Defined.

Lemma theme_touches_only_its_own_sample :
  exists st, mount no_numbers (stored "false") = Normal st
    /\ getItem "token" (browser (toggles no_numbers 3 st)) = None
    /\ ("modal-open" ∈ classList (browser (toggles no_numbers 3 st))
        <-> "modal-open" ∈ classList (stored "false")).
Proof.
  pose (st := {| darkMode := JBool false;
                 browser := darkMode_effect no_numbers (JBool false)
                              (stored "false") |}).
  assert (Hm : mount no_numbers (stored "false") = Normal st) by reflexivity.
  exists st. split; [exact Hm|].
  assert (Hk : "token" <> "darkMode") by discriminate.
  assert (Hc : "modal-open" <> "dark") by discriminate.
  exact (theme_touches_only_its_own no_numbers (stored "false") st 3
           "token" "modal-open" Hm Hk Hc).
Defined.

Lemma reload_restores_sample :
  exists st st',
    mount no_numbers (stored "false") = Normal st
    /\ mount no_numbers (reload ∅ (browser (toggleTheme no_numbers st)))
       = Normal st'
    /\ darkMode st' = JBool true
    /\ "dark" ∈ classList (browser st').
Proof.
  pose (st := {| darkMode := JBool false;
                 browser := darkMode_effect no_numbers (JBool false)
                              (stored "false") |}).
  assert (Hm : mount no_numbers (stored "false") = Normal st) by reflexivity.
  destruct (reload_restores no_numbers (toggleTheme no_numbers st) true ∅
              (reach_toggle _ _ (reach_mount _ _ _ Hm)) eq_refl)
    as (st' & Hm' & Hd & _ & Hc).
  exists st, st'. split; [exact Hm|]. split; [exact Hm'|].
  split; [exact Hd|]. apply Hc. reflexivity.
Defined.

Lemma unreadable_theme_fails_the_mount_sample :
  JSON_parse "dark" = Throw (ThrowNative SyntaxError)
  /\ darkMode_initializer (stored "dark") = Throw (ThrowNative SyntaxError)
  /\ mount no_numbers (stored "dark") = Throw (ThrowNative SyntaxError).
Proof.
  apply (unreadable_theme_fails_the_mount no_numbers (stored "dark") "dark");
    [reflexivity|discriminate|].
  right. exists "d"%char, "ark". split; reflexivity.
Defined.

End ThemeFacts.

Module RouteFacts.
Import JS AppShell AppView.

(** The router of [match_route] picks entries of the table, and so
    does the one that takes a trailing slash. *)
Lemma pick_exact_picks rs : picks_from rs (pick_exact rs).
Proof.
  intros location entry. induction rs as [|[path element] rs IH]; [done|].
  cbn [pick_exact]. destruct (String.eqb path location).
  - intros [= <-]. by left.
  - intros H. right. by apply IH.
Qed.

Lemma pick_lenient_picks rs : picks_from rs (pick_lenient rs).
Proof. intros location entry. apply pick_exact_picks. Qed.

Lemma match_route_pick_exact location rs :
  match_route location rs
  = match pick_exact rs location with
    | Some (_, element) => Some element
    | None => None
    end.
Proof.
  induction rs as [|[path element] rs IH]; [done|].
  cbn [match_route pick_exact]. by destruct (String.eqb path location).
Qed.

Section Routes.

Variable isAuthenticated : unit -> JsVal.

(** The router: it picks entries of the route table of [App] only, and
    for the location [/login] the route of that path. *)
Variable pick : string -> option (string * Element).
Hypothesis pick_routes : picks_from routes pick.
Hypothesis pick_login : pick "/login" = Some ("/login", Login).

(** [Routes] is [Routes_by] with the router of [match_route]. *)
Lemma Routes_exact location :
  Routes isAuthenticated location
  = Routes_by isAuthenticated (pick_exact routes) location.
Proof.
  unfold Routes, Routes_by. rewrite match_route_pick_exact.
  by destruct (pick_exact routes location) as [[path element]|].
Qed.

(** What a location can render: nothing, a public page, or what the
    guard makes of a dashboard. *)
Lemma Routes_by_cases location :
  Routes_by isAuthenticated pick location = None
  \/ Routes_by isAuthenticated pick location = Some Login
  \/ Routes_by isAuthenticated pick location = Some Register
  \/ Routes_by isAuthenticated pick location
     = Some (PrivateRoute isAuthenticated GuardianHome)
  \/ Routes_by isAuthenticated pick location
     = Some (PrivateRoute isAuthenticated UserHome)
  \/ Routes_by isAuthenticated pick location = Some (Navigate "/login").
Proof.
  unfold Routes_by.
  destruct (pick location) as [[path element]|] eqn:E; [|auto].
  apply pick_routes in E. unfold routes in E. cbn [In] in E.
  destruct E as [E|[E|[E|[E|[E|[]]]]]]; injection E as <- <-;
    cbn [render]; auto 6.
Qed.

Lemma Routes_by_login : Routes_by isAuthenticated pick "/login" = Some Login.
Proof. unfold Routes_by. by rewrite pick_login. Qed.

Lemma Routes_by_redirect location to :
  Routes_by isAuthenticated pick location = Some (Navigate to) -> to = "/login".
Proof.
  destruct (Routes_by_cases location) as [H|[H|[H|[H|[H|H]]]]]; rewrite H;
    unfold PrivateRoute; try destruct (truthy (isAuthenticated tt));
    by intros [= <-].
Qed.

End Routes.

Section Guard.

Variable isAuthenticated : unit -> JsVal.

(** The router: which entry of the route table it matches with a
    location. *)
Variable pick : string -> option (string * Element).

(** X7. The routes have no redirect loop, whatever locations the
    router takes for the routes of [App]: for every location, what is
    shown after one redirect is what is shown after any number, it is a
    page and never a further redirect, and a location that redirects
    ends on the login page. *)
Theorem redirects_end_at_a_page fuel location :
  picks_from routes pick ->
  pick "/login" = Some ("/login", Login) ->
  settle_by isAuthenticated pick (S fuel) location
  = settle_by isAuthenticated pick 1 location
  /\ (forall e, settle_by isAuthenticated pick 1 location = Some e ->
        is_page e = true)
  /\ (forall to, Routes_by isAuthenticated pick location = Some (Navigate to) ->
        settle_by isAuthenticated pick 1 location = Some Login).
Proof.
  intros pick_routes pick_login.
  assert (Hstep : forall n, settle_by isAuthenticated pick (S n) location
            = match Routes_by isAuthenticated pick location with
              | Some (Navigate _) => Some Login
              | shown => shown
              end).
  { intros n. cbn [settle_by].
    destruct (Routes_by isAuthenticated pick location) as [e|] eqn:E; [|done].
    destruct e; try done.
    apply (Routes_by_redirect _ _ pick_routes) in E as ->.
    destruct n; cbn [settle_by]; by rewrite Routes_by_login. }
  split; [by rewrite !Hstep|]. split.
  - intros e. rewrite Hstep.
    destruct (Routes_by_cases isAuthenticated pick pick_routes location)
      as [H|[H|[H|[H|[H|H]]]]]; rewrite H;
      unfold PrivateRoute; try destruct (truthy (isAuthenticated tt));
      by intros [= <-].
  - intros to H. by rewrite Hstep, H.
Qed.

(** X8. Whatever location the router takes for which route of [App],
    and whatever redirects are followed, the guardian and user
    dashboards are on the screen only when [isAuthenticated()] answers a
    truthy value. *)
Theorem dashboards_need_a_session fuel location e :
  picks_from routes pick ->
  settle_by isAuthenticated pick fuel location = Some e ->
  e = GuardianHome \/ e = UserHome ->
  truthy (isAuthenticated tt) = true.
Proof.
  intros Hp Hs He.
  assert (Hr : exists loc, Routes_by isAuthenticated pick loc = Some e).
  { revert location Hs.
    induction fuel as [|fuel IH]; intros location; cbn [settle_by].
    - destruct (Routes_by isAuthenticated pick location) as [e'|] eqn:E; [|done].
      destruct e'; intros [= <-]; try (by eexists); by destruct He.
    - destruct (Routes_by isAuthenticated pick location) as [e'|] eqn:E; [|done].
      destruct e'; try (intros [= <-]; by eexists). apply IH. }
  destruct Hr as [loc Hr]. unfold Routes_by in Hr.
  destruct (pick loc) as [[path element]|] eqn:E; [|done].
  apply Hp in E. unfold routes in E. cbn [In] in E.
  destruct E as [E|[E|[E|[E|[E|[]]]]]]; injection E as <- <-;
    cbn [render] in Hr; unfold PrivateRoute in Hr;
    destruct (truthy (isAuthenticated tt)); try done;
    injection Hr as <-; by destruct He.
Qed.

End Guard.

Lemma redirects_end_at_a_page_sample :
  Routes_by (fun _ => JNull) (pick_lenient routes) "/user/"
  = Some (Navigate "/login")
  /\ settle_by (fun _ => JNull) (pick_lenient routes) 1 "/user/" = Some Login.
Proof.
  assert (H : Routes_by (fun _ => JNull) (pick_lenient routes) "/user/"
              = Some (Navigate "/login"))
    by reflexivity.
  split; [exact H|].
  exact (proj2 (proj2 (redirects_end_at_a_page (fun _ => JNull)
                         (pick_lenient routes) 0 "/user/"
                         (pick_lenient_picks routes) eq_refl))
           "/login" H).
Defined.

Lemma dashboards_need_a_session_sample :
  settle_by (fun _ => JStr "token") (pick_lenient routes) 1 "/guardian/"
  = Some GuardianHome
  /\ truthy (JStr "token") = true.
Proof.
  assert (H : settle_by (fun _ => JStr "token") (pick_lenient routes) 1
                "/guardian/" = Some GuardianHome)
    by reflexivity.
  split; [exact H|].
  exact (dashboards_need_a_session (fun _ => JStr "token") (pick_lenient routes)
           1 "/guardian/" GuardianHome (pick_lenient_picks routes) H
           (or_introl eq_refl)).
Defined.

End RouteFacts.

Module FormFacts.
Import JS AppShell AppView LoginPage LoginForm LoginFacts.

(** ** Typing into the form *)

Lemma typing_last changes : forall formData,
  typing changes formData =
    {| email := last_email changes (email formData);
       password := last_password changes (password formData) |}.
Proof.
  unfold typing.
  induction changes as [|[value|value] changes IH]; intros formData; cbn.
  - by destruct formData.
  - by rewrite IH.
  - by rewrite IH.
Qed.

Lemma count_zero_filter p events :
  count p events = 0 -> List.filter p events = [].
Proof. unfold count. by destruct (List.filter p events). Qed.

Section Handler.

Variable Number_toString : JsNumber -> string.
Variable t : string -> string.
Variable login : FormData -> Completion JsVal.
Variable isGuardian : unit -> JsVal.

#[local] Abbreviation after := (after_settled Number_toString t isGuardian).


(** X9. After any sequence of changes to the two inputs, starting
    from the empty form, the form holds the last value typed into each
    input (the empty string if none), and a submission calls
    [authService.login] once, with exactly these two values. *)
Theorem typed_credentials_are_sent changes :
  let formData := typing changes initial_formData in
  formData = {| email := last_email changes ""; password := last_password changes "" |}
  /\ List.filter is_request
       (trace (fst (submit Number_toString t login isGuardian formData)))
     = [LoginCalled {| email := last_email changes "";
                       password := last_password changes "" |}].
Proof.
  intros formData. subst formData. rewrite typing_last. cbn [email password initial_formData].
  split; [done|]. rewrite submit_run. cbn [fst trace].
  pose proof (after_settled_events Number_toString t isGuardian
                (login {| email := last_email changes "";
                          password := last_password changes "" |}))
    as (_ & Hr & _).
  cbn zeta in Hr. apply count_zero_filter in Hr.
  rewrite !List.filter_app, Hr. cbn.
  by destruct (login _).
Qed.





(** X11. The promise of [handleSubmit] rejects exactly when
    [authService.login] rejects with [undefined] or [null], and then
    with a TypeError; every other failure, of the request or of the
    success branch, is caught. *)
Theorem handler_rejects_only_on_nullish_reason formData e :
  snd (submit Number_toString t login isGuardian formData) = Throw e <->
  (login formData = Throw (ThrowValue JUndefined)
   \/ login formData = Throw (ThrowValue JNull))
  /\ e = ThrowNative TypeError.
Proof.
  rewrite submit_run. cbn [snd]. unfold after_settled. split.
  - destruct (login formData) as [response|reason].
    + unfold welcome.
      destruct (Get response p_user) as [user|e1] eqn:Hu; cbn [bindC].
      * destruct (Get user p_first_name) as [fn|e2] eqn:Hf; cbn [bindC].
        -- destruct (ToString Number_toString fn) as [name|e3] eqn:Hn;
             cbn [bindC]; [done|].
           by apply ToString_throws in Hn as ->.
        -- destruct user; try done; cbn in Hf; by injection Hf as <-.
      * destruct response; try done; cbn in Hu; by injection Hu as <-.
    + destruct (error_detail reason) as [d|e'] eqn:Hd; cbn [bindC]; [done|].
      apply error_detail_throws in Hd as [Hr ->]. intros [= <-].
      split; [|done]. destruct Hr as [-> | ->]; auto.
  - intros [[-> | ->] ->]; reflexivity.
Qed.

End Handler.
End FormFacts.

Module SubmitFacts.
Import JS AppShell AppView LoginPage LoginForm LoginFacts.

Section Handler.

Variable Number_toString : JsNumber -> string.
Variable t : string -> string.
Variable login : FormData -> Completion JsVal.
Variable isGuardian : unit -> JsVal.

#[local] Abbreviation after := (after_settled Number_toString t isGuardian).

(** The two shapes of what follows the request: the welcome toast and
    the navigation, or at most one error toast. *)
Lemma after_settled_shape outcome :
  (exists response message,
     outcome = Normal response
     /\ welcome Number_toString t response = Normal message
     /\ fst (after outcome)
        = [ToastSuccess message; NavigateTo (role_route isGuardian)])
  \/ (exists error, fst (after outcome) = error_toast error).
Proof.
  unfold after_settled. destruct outcome as [response|reason]; [|eauto].
  destruct (welcome _ _ response) as [message|e] eqn:E; [|eauto].
  left. by exists response, message.
Qed.

Lemma error_toast_truthy error message :
  In (ToastError message) (error_toast error) -> truthy message = true.
Proof.
  unfold error_toast. destruct (error_detail error) as [detail|e]; [|done].
  destruct (truthy detail) eqn:E; intros [[= <-]|[]]; done.
Qed.

Lemma submit_events formData e :
  In e (trace (fst (submit Number_toString t login isGuardian formData))) <->
  e = PreventDefault \/ e = SetLoading true \/ e = LoginCalled formData
  \/ e = settled (login formData)
  \/ In e (fst (after (login formData)))
  \/ e = SetLoading false.
Proof.
  rewrite submit_run. cbn [fst trace].
  rewrite !in_app_iff. cbn [In]. intuition.
Qed.

(** X12. An error notification of the handler never has an empty
    message: what it passes to [toast.error] is truthy, in particular
    not the empty string (an empty [detail] is replaced by
    ['Login failed']). *)
Theorem error_toast_is_never_empty formData message :
  In (ToastError message)
     (trace (fst (submit Number_toString t login isGuardian formData))) ->
  truthy message = true /\ message <> JStr "".
Proof.
  intros H. apply submit_events in H.
  assert (Ht : truthy message = true).
  { destruct H as [H|[H|[H|[H|[H|H]]]]]; try discriminate H.
    - by destruct (login formData).
    - destruct (after_settled_shape (login formData))
        as [(r & m & _ & _ & Hs)|[error Hs]]; rewrite Hs in H.
      + by destruct H as [H|[H|[]]].
      + by eapply error_toast_truthy. }
  split; [done|]. by intros ->.
Qed.

(** X13. The welcome toast and the navigation go together: a
    submission shows as many welcome toasts as it navigates, and when
    it shows one, the login call resolved, the toast is followed at
    once by the navigation to the route of the role and by
    [setLoading(false)], no error notification is shown, and the handler
    completes normally. *)
Theorem welcome_and_navigation_go_together formData :
  let events := trace (fst (submit Number_toString t login isGuardian formData)) in
  count is_success_toast events = count is_navigation events
  /\ (0 < count is_success_toast events ->
      exists response message,
        login formData = Normal response
        /\ events = [PreventDefault; SetLoading true; LoginCalled formData;
                     LoginResolved response; ToastSuccess message;
                     NavigateTo (role_route isGuardian); SetLoading false]
        /\ snd (submit Number_toString t login isGuardian formData) = Normal tt).
Proof.
  intros events. subst events. rewrite submit_run. cbn [fst snd trace].
  unfold after_settled.
  destruct (login formData) as [response|reason].
  - destruct (welcome _ _ response) as [message|e].
    + split; [done|]. intros _. by exists response, message.
    + unfold error_toast. destruct (error_detail e); cbn; split; try done; lia.
  - unfold error_toast. destruct (error_detail reason); cbn; split; try done; lia.
Qed.

(** X14. Every path the login handler navigates to is a guarded
    route of [App], the one of the dashboard of the role: there [App]
    renders that dashboard when [isAuthenticated()] is truthy, and
    otherwise redirects, ending on the login page. *)
Theorem navigation_targets_are_guarded formData path isAuthenticated :
  In (NavigateTo path)
     (trace (fst (submit Number_toString t login isGuardian formData))) ->
  let dashboard := if truthy (isGuardian tt) then GuardianHome else UserHome in
  match_route path routes = Some (Private dashboard)
  /\ Routes isAuthenticated path
     = Some (if truthy (isAuthenticated tt) then dashboard else Navigate "/login")
  /\ settle isAuthenticated 1 path
     = Some (if truthy (isAuthenticated tt) then dashboard else Login).
Proof.
  intros H. apply submit_events in H.
  assert (Hp : path = role_route isGuardian).
  { destruct H as [H|[H|[H|[H|[H|H]]]]]; try discriminate H.
    - by destruct (login formData).
    - destruct (after_settled_shape (login formData))
        as [(r & m & _ & _ & Hs)|[error Hs]]; rewrite Hs in H.
      + destruct H as [H|[H|[]]]; [discriminate H|by injection H].
      + unfold error_toast in H.
        destruct (error_detail error); [|done]. by destruct H as [H|[]]. }
  subst path. unfold role_route.
  destruct (truthy (isGuardian tt)); cbn zeta;
    (split; [reflexivity|]); unfold Routes; cbn; unfold PrivateRoute;
    destruct (truthy (isAuthenticated tt)); done.
Qed.

(** The turn that begins a submission, and the one that resumes it, as
    lists of effects. *)
Lemma handleSubmit_begin_run formData st :
  handleSubmit_begin formData st =
    ({| loading := true;
        trace := trace st
                 ++ [PreventDefault; SetLoading true; LoginCalled formData] |},
     Normal tt).
Proof.
  unfold handleSubmit_begin, setLoading, emit, bind.
  cbn [loading trace]. by rewrite <- !app_assoc.
Qed.

Lemma handleSubmit_resume_run formData st :
  handleSubmit_resume Number_toString t login isGuardian formData st =
    ({| loading := false;
        trace := trace st
                 ++ [settled (login formData)]
                 ++ fst (after (login formData))
                 ++ [SetLoading false] |},
     snd (after (login formData))).
Proof.
  unfold handleSubmit_resume, try_block_resumed, try_finally, try_catch,
    catch_block, setLoading, emit, lift, ret, bind.
  cbn [loading trace fst snd app].
  unfold after_settled, welcome, error_toast, role_route, settled.
  destruct (login formData) as [response|reason]; cbn [loading trace fst snd].
  - destruct (Get response p_user) as [user|e]; cbn [bindC loading trace fst snd].
    + destruct (Get user p_first_name) as [first_name|e];
        cbn [bindC loading trace fst snd].
      * destruct (ToString Number_toString first_name) as [name|e];
          cbn [bindC loading trace fst snd].
        -- destruct (truthy (isGuardian tt)); cbn [bindC loading trace fst snd];
             by rewrite <- !app_assoc.
        -- destruct (error_detail e); cbn [bindC loading trace fst snd];
             by rewrite <- !app_assoc.
      * destruct (error_detail e); cbn [bindC loading trace fst snd];
          by rewrite <- !app_assoc.
    + destruct (error_detail e); cbn [bindC loading trace fst snd];
        by rewrite <- !app_assoc.
  - destruct (error_detail reason); cbn [bindC loading trace fst snd];
      by rewrite <- !app_assoc.
Qed.

Lemma event_loop_snoc turns tn st :
  event_loop Number_toString t login isGuardian (turns ++ [tn]) st
  = fst (turn Number_toString t login isGuardian tn
           (event_loop Number_toString t login isGuardian turns st)).
Proof. unfold event_loop. by rewrite fold_left_app. Qed.

(** What one turn adds to the requests issued and settled. *)
Lemma turn_counts tn st :
  let st' := fst (turn Number_toString t login isGuardian tn st) in
  count is_request (trace st')
  = count is_request (trace st) + (if is_submitted tn then 1 else 0)
  /\ count is_settled (trace st')
     = count is_settled (trace st) + (if is_settled_turn tn then 1 else 0).
Proof.
  destruct tn as [formData|formData]; cbn [turn is_submitted is_settled_turn].
  - rewrite handleSubmit_begin_run. cbn [fst trace]. unfold count.
    rewrite !List.filter_app, !length_app. by cbn.
  - rewrite handleSubmit_resume_run. cbn [fst trace].
    pose proof (after_settled_events Number_toString t isGuardian (login formData))
      as (Hs & Hr & _).
    cbn zeta in Hs, Hr. unfold count in *.
    rewrite !List.filter_app, !length_app, Hs, Hr.
    pose proof (is_settled_settled (login formData)) as Hd.
    cbn [List.filter is_settled is_request length]. rewrite Hd.
    destruct (login formData); cbn; lia.
Qed.

(** X15. Submissions may overlap: [handleSubmit] is the turn up to
    its [await] followed by the turn from it on, and turns of other
    submissions may run in between.  Whatever the order of the turns,
    every submission issues its request, whether [loading] is set or
    not, and [loading] tells only what the last turn was: it is reset
    as soon as any request settles, also while others are pending. *)
Theorem loading_follows_the_last_turn turns st :
  (forall formData,
     handleSubmit Number_toString t login isGuardian formData st
     = (event_loop Number_toString t login isGuardian
          [Submitted formData; Settled formData] st,
        snd (handleSubmit_resume Number_toString t login isGuardian formData
               (fst (handleSubmit_begin formData st)))))
  /\ (let st' := event_loop Number_toString t login isGuardian turns st in
      loading st' = match last turns with
                    | None => loading st
                    | Some (Submitted _) => true
                    | Some (Settled _) => false
                    end
      /\ count is_request (trace st')
         = count is_request (trace st) + length (List.filter is_submitted turns)
      /\ count is_settled (trace st')
         = count is_settled (trace st)
           + length (List.filter is_settled_turn turns)).
Proof.
  split.
  - intros formData. unfold event_loop. cbn [fold_left turn].
    rewrite handleSubmit_run, handleSubmit_begin_run. cbn [fst].
    rewrite handleSubmit_resume_run. cbn [fst snd trace].
    by rewrite <- !app_assoc.
  - cbn zeta. induction turns as [|tn turns IH] using rev_ind.
    + cbn. split; [done|]. split; lia.
    + rewrite event_loop_snoc, last_snoc, !List.filter_app, !length_app.
      destruct IH as (_ & Hr & Hs).
      pose proof (turn_counts tn
                    (event_loop Number_toString t login isGuardian turns st))
        as (Hr' & Hs').
      cbn zeta in Hr', Hs'. rewrite Hr', Hs', Hr, Hs.
      split; [|destruct tn; cbn; lia].
      destruct tn as [formData|formData]; cbn [turn].
      * by rewrite handleSubmit_begin_run.
      * by rewrite handleSubmit_resume_run.
Qed.

End Handler.

Lemma error_toast_is_never_empty_sample :
  truthy (JStr "Login failed") = true /\ JStr "Login failed" <> JStr "".
Proof.
  apply (error_toast_is_never_empty no_numbers untranslated
           (fun _ => Throw (ThrowValue (JObj [("response", JObj [("data", JObj [("detail", JStr "")])])])))
           (fun _ => JBool false) sample_form (JStr "Login failed")).
  vm_compute. tauto.
Defined.

Lemma welcome_and_navigation_go_together_sample :
  exists response message,
    answer_with_user = response
    /\ trace (fst (submit no_numbers untranslated
                     (fun _ => Normal answer_with_user) (fun _ => JBool false)
                     sample_form))
       = [PreventDefault; SetLoading true; LoginCalled sample_form;
          LoginResolved response; ToastSuccess message;
          NavigateTo "/user"; SetLoading false].
Proof.
  destruct (proj2 (welcome_and_navigation_go_together no_numbers untranslated
                     (fun _ => Normal answer_with_user) (fun _ => JBool false)
                     sample_form))
    as (response & message & Hl & He & _); [vm_compute; lia|].
  exists response, message. split; [by injection Hl|exact He].
Defined.

Lemma navigation_targets_are_guarded_sample :
  Routes (fun _ => JBool true) "/guardian" = Some GuardianHome
  /\ Routes (fun _ => JBool false) "/guardian" = Some (Navigate "/login").
Proof.
  assert (H : In (NavigateTo "/guardian")
                (trace (fst (submit no_numbers untranslated
                               (fun _ => Normal answer_with_user)
                               (fun _ => JBool true) sample_form))))
    by (vm_compute; tauto).
  split.
  - exact (proj1 (proj2 (navigation_targets_are_guarded no_numbers untranslated
                           (fun _ => Normal answer_with_user) (fun _ => JBool true)
                           sample_form "/guardian" (fun _ => JBool true) H))).
  - exact (proj1 (proj2 (navigation_targets_are_guarded no_numbers untranslated
                           (fun _ => Normal answer_with_user) (fun _ => JBool true)
                           sample_form "/guardian" (fun _ => JBool false) H))).
Defined.

(** Two submissions that overlap: when the first request settles the
    button is enabled again although the second is still pending. *)
Lemma loading_follows_the_last_turn_sample :
  button_disabled
    (event_loop no_numbers untranslated (fun _ => Normal answer_with_user)
       (fun _ => JBool true)
       [Submitted sample_form; Submitted initial_formData; Settled sample_form]
       idle) = false
  /\ count is_request
       (trace (event_loop no_numbers untranslated
                 (fun _ => Normal answer_with_user) (fun _ => JBool true)
                 [Submitted sample_form; Submitted initial_formData;
                  Settled sample_form] idle)) = 2
  /\ count is_settled
       (trace (event_loop no_numbers untranslated
                 (fun _ => Normal answer_with_user) (fun _ => JBool true)
                 [Submitted sample_form; Submitted initial_formData;
                  Settled sample_form] idle)) = 1.
Proof.
  destruct (proj2 (loading_follows_the_last_turn no_numbers untranslated
                     (fun _ => Normal answer_with_user) (fun _ => JBool true)
                     [Submitted sample_form; Submitted initial_formData;
                      Settled sample_form]
                     idle))
    as (Hl & Hr & Hs).
  split; [exact Hl|]. split; [exact Hr|exact Hs].
Defined.

End SubmitFacts.

Module GuardianFacts.
Import JS GuardianHomePage LoginFacts.

Section Greeting.

Variable Number_toString : JsNumber -> string.
Variable t : string -> string.
Variable getCurrentUser : unit -> JsVal.

Lemma child_text_object_free : forall v,
  (exists s, child_text Number_toString v = Some s) <-> object_free v = true.
Proof.
  fix IH 1. intros v. destruct v as [| |b|n|s|elems|props]; cbn [child_text object_free];
    try (split; [done|by eexists]).
  - induction elems as [|x elems IHl]; [split; [done|by eexists]|].
    cbn [forallb]. rewrite andb_true_iff, <- IHl, <- (IH x).
    destruct (child_text Number_toString x) as [sx|].
    + match goal with |- context [?ch elems] => destruct (ch elems) as [r|] end.
      * split; [eauto|by eexists].
      * split; [by intros [? ?]|by intros [_ [? ?]]].
    + split; [by intros [? ?]|by intros [[? ?] _]].
  - split; [by intros [? ?]|done].
Qed.

(** X16. The greeting of [GuardianHome] never throws on reading the
    user: with no current user ([getCurrentUser()] answers [undefined]
    or [null]) it shows the welcome text followed by a comma and
    nothing; React refuses it only when [first_name] is, or holds, a
    plain object. *)
Theorem greeting_survives_a_missing_user :
  (exists shown, greeting Number_toString t getCurrentUser = Normal shown)
  /\ (nullish (getCurrentUser tt) = true ->
      greeting Number_toString t getCurrentUser
      = Normal (Some (t "dashboard.welcome" ++ ", ")))
  /\ (forall first_name,
        GetOptional (getCurrentUser tt) p_first_name = Normal first_name ->
        (greeting Number_toString t getCurrentUser = Normal None
         <-> object_free first_name = false)).
Proof.
  unfold greeting. split; [|split].
  - destruct (GetOptional_normal (getCurrentUser tt) p_first_name) as [x ->].
    by eexists.
  - intros H. unfold GetOptional. by rewrite H.
  - intros first_name ->. cbn [bindC].
    pose proof (child_text_object_free first_name) as Hc.
    destruct (child_text Number_toString first_name) as [s|].
    + destruct Hc as [Hc _]. rewrite Hc by eauto. split; done.
    + destruct (object_free first_name); [|done].
      destruct Hc as [_ [s Hs]]; done.
Qed.

End Greeting.

Lemma greeting_survives_a_missing_user_sample :
  greeting no_numbers LoginPage.untranslated (fun _ => JNull)
  = Normal (Some "dashboard.welcome, ").
Proof.
  exact (proj1 (proj2 (greeting_survives_a_missing_user no_numbers
                         LoginPage.untranslated (fun _ => JNull)))
           eq_refl).
Defined.

End GuardianFacts.
